(** * CHIP-8 emulator: a shallow embedding of the interpreter core

    The development follows [InstructionSet.h], [InstructionSet.c] and
    [CHIP8Emulator.c].  The C globals become the fields of one record that
    is threaded through every operation; fixed-width integers are [Z] with
    the truncation of every store written out; arrays are lists read and
    written by index.  A C function that may call [exit] or index outside
    an array returns an [outcome]. *)

From Stdlib Require Import ZArith Lia Bool.
From stdpp Require Import base list.

Local Open Scope Z_scope.

(** ** Constants and macros of [InstructionSet.h] *)

Definition STACK_UP  : Z := 0xEA0.
Definition STACK_LOW : Z := 0xEBE.
Definition SIZE_MEM  : Z := 4096.
Definition SIZE_FS   : Z := 80.
Definition NUM_REGS  : Z := 16.
Definition NUM_KEYS  : Z := 16.
Definition WIDTH     : Z := 64.
Definition HEIGHT    : Z := 32.

Definition INSTR (pc pc_next : Z) : Z := Z.lor (Z.shiftl pc 8) pc_next.
Definition VX (instr : Z) : Z := Z.shiftr (Z.land instr 0xF00) 8.
Definition VY (instr : Z) : Z := Z.shiftr (Z.land instr 0xF0) 4.
Definition ADDR (instr : Z) : Z := Z.land instr 0xFFF.
Definition BYTE (instr : Z) : Z := Z.land instr 0xFF.
Definition LSN (instr : Z) : Z := Z.land instr 0xF.
Definition MSN (instr : Z) : Z := Z.shiftr (Z.land instr 0xF000) 12.
Definition MSBR (b : Z) : Z := Z.shiftr b 7.
Definition LSBI (b : Z) : Z := Z.land b 0x1.

(** Conversions to the unsigned types of the header. *)
Definition u8 (z : Z) : Z := z mod 256.
Definition u16 (z : Z) : Z := z mod 65536.

(** ** Machine state: the globals of the two headers

    [sp] is a C pointer: it is kept as the numeric address it holds.  The
    other arrays are lists of their declared length (see [wf]). *)

Record state := mkState {
  RAM : list Z;
  PC : Z;
  I : Z;
  v : list Z;
  keys : list Z;
  sp : Z;
  screen : list Z;
  delay_timer : Z;
  sound_timer : Z;
  draw : Z
}.

Definition set_RAM (m : list Z) (s : state) : state :=
  mkState m (PC s) (I s) (v s) (keys s) (sp s) (screen s)
          (delay_timer s) (sound_timer s) (draw s).
Definition set_PC (a : Z) (s : state) : state :=
  mkState (RAM s) a (I s) (v s) (keys s) (sp s) (screen s)
          (delay_timer s) (sound_timer s) (draw s).
Definition set_I (a : Z) (s : state) : state :=
  mkState (RAM s) (PC s) a (v s) (keys s) (sp s) (screen s)
          (delay_timer s) (sound_timer s) (draw s).
Definition set_v (r : list Z) (s : state) : state :=
  mkState (RAM s) (PC s) (I s) r (keys s) (sp s) (screen s)
          (delay_timer s) (sound_timer s) (draw s).
Definition set_keys (k : list Z) (s : state) : state :=
  mkState (RAM s) (PC s) (I s) (v s) k (sp s) (screen s)
          (delay_timer s) (sound_timer s) (draw s).
Definition set_sp (p : Z) (s : state) : state :=
  mkState (RAM s) (PC s) (I s) (v s) (keys s) p (screen s)
          (delay_timer s) (sound_timer s) (draw s).
Definition set_screen (d : list Z) (s : state) : state :=
  mkState (RAM s) (PC s) (I s) (v s) (keys s) (sp s) d
          (delay_timer s) (sound_timer s) (draw s).
Definition set_delay_timer (t : Z) (s : state) : state :=
  mkState (RAM s) (PC s) (I s) (v s) (keys s) (sp s) (screen s)
          t (sound_timer s) (draw s).
Definition set_sound_timer (t : Z) (s : state) : state :=
  mkState (RAM s) (PC s) (I s) (v s) (keys s) (sp s) (screen s)
          (delay_timer s) t (draw s).
Definition set_draw (d : Z) (s : state) : state :=
  mkState (RAM s) (PC s) (I s) (v s) (keys s) (sp s) (screen s)
          (delay_timer s) (sound_timer s) d.

(** The array declarations of the headers, as a predicate on states. *)
Definition wf (s : state) : Prop :=
  Z.of_nat (length (RAM s)) = SIZE_MEM /\
  Z.of_nat (length (v s)) = NUM_REGS /\
  Z.of_nat (length (keys s)) = NUM_KEYS /\
  Z.of_nat (length (screen s)) = WIDTH * HEIGHT.

(** ** Outcomes

    The program leaves through [exit(EXIT_FAILURE)] at three places of the
    interpreter, each after printing a message; [load_source] has a fourth
    and [_set_keys] leaves with [exit(EXIT_SUCCESS)] on the escape key.
    Indexing an array outside its bounds has no meaning in C; the
    embedding marks it [Undefined], which is none of the program's exits. *)

Inductive exit_cause : Type :=
| Stack_overflow
| Empty_stack
| Unknown_instruction (pc instr : Z)
| Error_reading_ROM
| Escape_pressed.

Inductive outcome (A : Type) : Type :=
| Ok (a : A)
| Exit (f : exit_cause)
| Undefined.
Arguments Ok {A} a.
Arguments Exit {A} f.
Arguments Undefined {A}.

(** Sequencing stops at the first exit or undefined access; stdpp's
    [x ← m; k] notation is used for it. *)
#[global] Instance outcome_ret : MRet outcome := fun A a => Ok a.
#[global] Instance outcome_bind : MBind outcome := fun A B k m =>
  match m with
  | Ok a => k a
  | Exit f => Exit f
  | Undefined => Undefined
  end.

(** ** Array access *)

(** [a[i]] as an rvalue: defined for [0 <= i < length a]. *)
Definition rd (a : list Z) (i : Z) : outcome Z :=
  if 0 <=? i then
    match a !! Z.to_nat i with
    | Some b => Ok b
    | None => Undefined
    end
  else Undefined.

(** [a[i] = b] for an array of [u_int8_t]: the stored value is truncated. *)
Definition wr (a : list Z) (i : Z) (b : Z) : outcome (list Z) :=
  if (0 <=? i) && (i <? Z.of_nat (length a)) then
    Ok (<[Z.to_nat i := u8 b]> a)
  else Undefined.

(** Registers are indexed by a nibble of the instruction ([VX], [VY]) or by
    a literal below 16, always inside [v]. *)
Definition reg (s : state) (x : Z) : Z := default 0 (v s !! Z.to_nat x).
Definition set_reg (x : Z) (b : Z) (s : state) : state :=
  set_v (<[Z.to_nat x := u8 b]> (v s)) s.

(** A counted loop [for (j = from; ...; j++) body], [n] iterations. *)
Fixpoint for_loop (n : nat) (j : Z) (body : Z -> state -> outcome state)
    (s : state) : outcome state :=
  match n with
  | O => Ok s
  | S n' => s' ← body j s; for_loop n' (j + 1) body s'
  end.

(** ** [InstructionSet.c] *)

Definition font_set : list Z :=
  [ 0xF0; 0x90; 0x90; 0x90; 0xF0;
    0x20; 0x60; 0x20; 0x20; 0x70;
    0xF0; 0x10; 0xF0; 0x80; 0xF0;
    0xF0; 0x10; 0xF0; 0x10; 0xF0;
    0x90; 0x90; 0xF0; 0x10; 0x10;
    0xF0; 0x80; 0xF0; 0x10; 0xF0;
    0xF0; 0x80; 0xF0; 0x90; 0xF0;
    0xF0; 0x10; 0x20; 0x40; 0x40;
    0xF0; 0x90; 0xF0; 0x90; 0xF0;
    0xF0; 0x90; 0xF0; 0x10; 0xF0;
    0xF0; 0x90; 0xF0; 0x90; 0x90;
    0xE0; 0x90; 0xE0; 0x90; 0xE0;
    0xF0; 0x80; 0x80; 0x80; 0xF0;
    0xE0; 0x90; 0x90; 0x90; 0xE0;
    0xF0; 0x80; 0xF0; 0x80; 0xF0;
    0xF0; 0x80; 0xF0; 0x80; 0x80 ].

Section Machine.

(** The address at which the array [RAM] is placed.  [sp] points into
    [RAM], while [push] and [pop] compare it with the integer constants
    [STACK_UP] and [STACK_LOW] converted to pointers, so the outcome of
    those comparisons depends on this address. *)
Variable RAM_addr : Z.

(** [*(address* ) p = a] and [*(address* ) p] for a pointer [p] into
    [RAM]: two adjacent bytes of the array, the low byte first (a
    little-endian host). *)
Definition store16 (p : Z) (a : Z) (s : state) : outcome state :=
  m1 ← wr (RAM s) (p - RAM_addr) (u16 a);
  m2 ← wr m1 (p - RAM_addr + 1) (Z.shiftr (u16 a) 8);
  Ok (set_RAM m2 s).

Definition load16 (p : Z) (s : state) : outcome Z :=
  lo ← rd (RAM s) (p - RAM_addr);
  hi ← rd (RAM s) (p - RAM_addr + 1);
  Ok (Z.lor (Z.shiftl hi 8) lo).

(** The tests of [push] and [pop] are comparisons of addresses: [sp]
    against the constant converted to a pointer. *)
Definition push (addr : Z) (s : state) : outcome state :=
  if sp s <? STACK_UP then Exit Stack_overflow
  else
    s' ← store16 (sp s) addr s;
    Ok (set_sp (sp s - 2) s').

Definition pop (s : state) : outcome (Z * state) :=
  if sp s =? STACK_LOW then Exit Empty_stack
  else
    let s' := set_sp (sp s + 2) s in
    a ← load16 (sp s') s';
    Ok (a, s').

Definition CLS (s : state) : outcome state :=
  Ok (set_screen (replicate (Z.to_nat (WIDTH * HEIGHT)) 0) s).

Definition RET (s : state) : outcome state :=
  '(a, s') ← pop s;
  Ok (set_PC (u16 (a + 2)) s').

Definition JP (i : Z) (s : state) : outcome state :=
  Ok (set_PC (ADDR i) s).

Definition CALL (i : Z) (s : state) : outcome state :=
  s' ← push (u16 (PC s - 2)) s;
  Ok (set_PC (ADDR i) s').

(** [PC += 2]. *)
Definition skip (s : state) : state := set_PC (u16 (PC s + 2)) s.

Definition SE (i : Z) (s : state) : outcome state :=
  Ok (if reg s (VX i) =? BYTE i then skip s else s).

Definition SNEI (i : Z) (s : state) : outcome state :=
  Ok (if reg s (VX i) =? BYTE i then s else skip s).

Definition SR (i : Z) (s : state) : outcome state :=
  Ok (if reg s (VX i) =? reg s (VY i) then skip s else s).

Definition LDB (i : Z) (s : state) : outcome state :=
  Ok (set_reg (VX i) (BYTE i) s).

Definition ADDI (i : Z) (s : state) : outcome state :=
  Ok (set_reg (VX i) (reg s (VX i) + BYTE i) s).

Definition LDR (i : Z) (s : state) : outcome state :=
  Ok (set_reg (VX i) (reg s (VY i)) s).

Definition OR (i : Z) (s : state) : outcome state :=
  Ok (set_reg (VX i) (Z.lor (reg s (VX i)) (reg s (VY i))) s).

Definition AND (i : Z) (s : state) : outcome state :=
  Ok (set_reg (VX i) (Z.land (reg s (VX i)) (reg s (VY i))) s).

Definition XOR (i : Z) (s : state) : outcome state :=
  Ok (set_reg (VX i) (Z.lxor (reg s (VX i)) (reg s (VY i))) s).

(** The flag is stored first; the second statement reads the registers
    again, after that store. *)
Definition ADD (i : Z) (s : state) : outcome state :=
  let s1 := set_reg 0xF (if reg s (VX i) >? 0xFF - reg s (VY i) then 1 else 0) s in
  Ok (set_reg (VX i) (reg s1 (VX i) + reg s1 (VY i)) s1).

Definition SUB (i : Z) (s : state) : outcome state :=
  let s1 := set_reg 0xF (if reg s (VY i) >? reg s (VX i) then 0 else 1) s in
  Ok (set_reg (VX i) (reg s1 (VX i) - reg s1 (VY i)) s1).

Definition SHR (i : Z) (s : state) : outcome state :=
  let s1 := set_reg 0xF (LSBI (reg s (VX i))) s in
  Ok (set_reg (VX i) (Z.shiftr (reg s1 (VX i)) 1) s1).

Definition SUBN (i : Z) (s : state) : outcome state :=
  let s1 := set_reg 0xF (if reg s (VX i) >? reg s (VY i) then 0 else 1) s in
  Ok (set_reg (VX i) (reg s1 (VY i) - reg s1 (VX i)) s1).

Definition SHL (i : Z) (s : state) : outcome state :=
  let s1 := set_reg 0xF (MSBR (reg s (VX i))) s in
  Ok (set_reg (VX i) (Z.shiftl (reg s1 (VX i)) 1) s1).

Definition SNE (i : Z) (s : state) : outcome state :=
  Ok (if reg s (VX i) =? reg s (VY i) then s else skip s).

Definition LDI (i : Z) (s : state) : outcome state :=
  Ok (set_I (ADDR i) s).

Definition JPR (i : Z) (s : state) : outcome state :=
  Ok (set_PC (u16 (ADDR i + reg s 0x0)) s).

(** [r] is the value returned by [rand()]. *)
Definition RND (r : Z) (i : Z) (s : state) : outcome state :=
  Ok (set_reg (VX i) (Z.land (Z.rem r 256) (BYTE i)) s).

(** The body of the inner loop of [DRW] for column [x] of row [y], whose
    byte is [p]. *)
Definition DRW_pixel (Vx Vy y p x : Z) (s : state) : outcome state :=
  if Z.land p (Z.shiftr 0x80 x) =? 0 then Ok s
  else
    c ← rd (screen s) (x + Vx + (y + Vy) * WIDTH);
    let s1 := if c =? 0 then s else set_reg 0xF 1 s in
    d ← wr (screen s1) (x + Vx + (y + Vy) * WIDTH) (Z.lxor c 1);
    Ok (set_screen d s1).

Definition DRW_row (Vx Vy y : Z) (s : state) : outcome state :=
  p ← rd (RAM s) (I s + y);
  for_loop 8 0 (DRW_pixel Vx Vy y p) s.

Definition DRW (i : Z) (s : state) : outcome state :=
  let Vx := reg s (VX i) in
  let Vy := reg s (VY i) in
  let height := LSN i in
  for_loop (Z.to_nat height) 0 (DRW_row Vx Vy) (set_reg 0xF 0 s).

Definition SKP (i : Z) (s : state) : outcome state :=
  k ← rd (keys s) (reg s (VX i));
  Ok (if k =? 0 then s else skip s).

Definition SKNP (i : Z) (s : state) : outcome state :=
  k ← rd (keys s) (reg s (VX i));
  Ok (if k =? 0 then skip s else s).

Definition LDD (i : Z) (s : state) : outcome state :=
  Ok (set_reg (VX i) (delay_timer s) s).

(** The loop of [LDK] from key [j] on, [n] keys left to look at; when it
    runs out, the instruction is repeated. *)
Fixpoint LDK_from (n : nat) (j : Z) (i : Z) (s : state) : outcome state :=
  match n with
  | O => Ok (set_PC (u16 (PC s - 2)) s)
  | S n' =>
      k ← rd (keys s) j;
      if k =? 0 then LDK_from n' (j + 1) i s
      else Ok (set_reg (VX i) j s)
  end.

Definition LDK (i : Z) (s : state) : outcome state :=
  LDK_from (Z.to_nat NUM_REGS) 0 i s.

Definition STD (i : Z) (s : state) : outcome state :=
  Ok (set_delay_timer (reg s (VX i)) s).

Definition STS (i : Z) (s : state) : outcome state :=
  Ok (set_sound_timer (reg s (VX i)) s).

Definition IINC (i : Z) (s : state) : outcome state :=
  let s1 := set_reg 0xF (if I s + reg s (VX i) >? 0xFFF then 1 else 0) s in
  Ok (set_I (u16 (I s1 + reg s1 (VX i))) s1).

Definition LDF (i : Z) (s : state) : outcome state :=
  Ok (set_I (u16 (reg s (VX i) * 5)) s).

Definition BCD (i : Z) (s : state) : outcome state :=
  m1 ← wr (RAM s) (I s) (Z.quot (reg s (VX i)) 100);
  m2 ← wr m1 (I s + 1) (Z.rem (Z.quot (reg s (VX i)) 10) 10);
  m3 ← wr m2 (I s + 2) (Z.rem (Z.rem (reg s (VX i)) 100) 10);
  Ok (set_RAM m3 s).

Definition STA_body (j : Z) (s : state) : outcome state :=
  m ← wr (RAM s) (I s + j) (reg s j);
  Ok (set_RAM m s).

Definition STA (i : Z) (s : state) : outcome state :=
  for_loop (Z.to_nat (VX i + 1)) 0 STA_body s.

Definition LDA_body (j : Z) (s : state) : outcome state :=
  b ← rd (RAM s) (I s + j);
  Ok (set_reg j b s).

Definition LDA (i : Z) (s : state) : outcome state :=
  for_loop (Z.to_nat (VX i + 1)) 0 LDA_body s.

(** ** [CHIP8Emulator.c] *)

(** What the host supplies to one turn of the loop of [run]: the state of
    the escape key, for each CHIP-8 key [k] the byte
    [pressed[emulator_keys[k]]], and the value [rand()] returns if the
    instruction asks for one. *)
Record host := mkHost {
  escape : bool;
  pressed : Z -> Z;
  rnd : Z
}.

(** [initialize] assigns every global, so its result is one state. *)
Definition initialize : state :=
  mkState (font_set ++ replicate (Z.to_nat (SIZE_MEM - SIZE_FS)) 0)
          0x200 0
          (replicate (Z.to_nat NUM_REGS) 0)
          (replicate (Z.to_nat NUM_KEYS) 0)
          (RAM_addr + STACK_LOW)
          (replicate (Z.to_nat (WIDTH * HEIGHT)) 0)
          0 0 0.

Definition fetch (s : state) : outcome (Z * state) :=
  hi ← rd (RAM s) (PC s);
  lo ← rd (RAM s) (PC s + 1);
  Ok (u16 (INSTR hi lo), skip s).

Definition unknown (i : Z) (s : state) : outcome state :=
  Exit (Unknown_instruction (PC s - 2) i).

Definition execute (r : Z) (i : Z) (s : state) : outcome state :=
  let msn := MSN i in
  let lsn := LSN i in
  match msn with
  | 0x0 =>
      if i =? 0x00E0 then CLS s
      else if i =? 0x00EE then RET s
      else unknown i s
  | 0x1 => JP i s
  | 0x2 => CALL i s
  | 0x3 => SE i s
  | 0x4 => SNEI i s
  | 0x5 => if lsn =? 0 then SR i s else unknown i s
  | 0x6 => LDB i s
  | 0x7 => ADDI i s
  | 0x8 =>
      match lsn with
      | 0x0 => LDR i s
      | 0x1 => OR i s
      | 0x2 => AND i s
      | 0x3 => XOR i s
      | 0x4 => ADD i s
      | 0x5 => SUB i s
      | 0x6 => SHR i s
      | 0x7 => SUBN i s
      | 0xE => SHL i s
      | _ => unknown i s
      end
  | 0x9 => if lsn =? 0 then SNE i s else unknown i s
  | 0xA => LDI i s
  | 0xB => JPR i s
  | 0xC => RND r i s
  | 0xD => s' ← DRW i s; Ok (set_draw 1 s')
  | 0xE =>
      if BYTE i =? 0x9E then SKP i s
      else if BYTE i =? 0xA1 then SKNP i s
      else unknown i s
  | 0xF =>
      match BYTE i with
      | 0x07 => LDD i s
      | 0x0A => LDK i s
      | 0x15 => STD i s
      | 0x18 => STS i s
      | 0x1E => IINC i s
      | 0x29 => LDF i s
      | 0x33 => BCD i s
      | 0x55 => STA i s
      | 0x65 => LDA i s
      | _ => unknown i s
      end
  | _ => unknown i s
  end.

Definition _decrement_timers (s : state) : state :=
  let s1 := if delay_timer s >? 0 then set_delay_timer (u8 (delay_timer s - 1)) s
            else s in
  if sound_timer s1 >? 0 then set_sound_timer (u8 (sound_timer s1 - 1)) s1
  else s1.

(** The loop of [_set_keys]: the sixteen bytes it stores into [keys]. *)
Definition host_keys (h : host) : list Z :=
  map (fun k => u8 (pressed h k)) (seqZ 0 NUM_KEYS).

Definition _set_keys (h : host) (s : state) : outcome state :=
  if escape h then Exit Escape_pressed
  else Ok (set_keys (host_keys h) s).

(** One turn of the inner loop of [run]; [refresh_screen] only reads the
    state. *)
Definition clear_draw (s : state) : state :=
  if draw s =? 0 then s else set_draw 0 s.

Definition cycle (h : host) (s : state) : outcome state :=
  s1 ← _set_keys h s;
  '(i, s2) ← fetch s1;
  s3 ← execute (rnd h) i s2;
  Ok (clear_draw s3).

(** [load_source] once the file is open: [fread] copies at most [0xCA0]
    bytes of the ROM to [RAM + 0x200] and the program ends if it copied
    none. *)
Definition load_source (rom : list Z) (s : state) : outcome state :=
  match take (Z.to_nat 0xCA0) rom with
  | [] => Exit Error_reading_ROM
  | bytes => Ok (set_RAM (list_inserts (Z.to_nat 0x200) (map u8 bytes) (RAM s)) s)
  end.

End Machine.

(** ** Notions used in the statements *)

(** Several pushes in a row, as a chain of nested [CALL]s makes them. *)
Fixpoint push_all (RAM_addr : Z) (addrs : list Z) (s : state) : outcome state :=
  match addrs with
  | [] => Ok s
  | a :: rest => s' ← push RAM_addr a s; push_all RAM_addr rest s'
  end.

(** Turns of the loop of [run], one per host input. *)
Fixpoint cycles (RAM_addr : Z) (hs : list host) (s : state) : outcome state :=
  match hs with
  | [] => Ok s
  | h :: rest => s' ← cycle RAM_addr h s; cycles RAM_addr rest s'
  end.

(** The states [main] can be in between two turns of the loop of [run]:
    after [initialize] and [load_source], after a turn that neither exited
    nor was undefined, after [_decrement_timers]. *)
Inductive reachable (RAM_addr : Z) : state -> Prop :=
| reach_load rom s :
    load_source rom (initialize RAM_addr) = Ok s -> reachable RAM_addr s
| reach_cycle h s s' :
    reachable RAM_addr s -> cycle RAM_addr h s = Ok s' -> reachable RAM_addr s'
| reach_timers s :
    reachable RAM_addr s -> reachable RAM_addr (_decrement_timers s).

(** The instruction word stored at address [a], as [fetch] assembles it. *)
Definition word_at (s : state) (a : Z) : outcome Z :=
  hi ← rd (RAM s) a;
  lo ← rd (RAM s) (a + 1);
  Ok (u16 (INSTR hi lo)).

(** What every turn keeps: the arrays have their declared lengths and the
    program counter is a 16-bit value. *)
Definition inv (s : state) : Prop := wf s /\ 0 <= PC s < 65536.

(** No CHIP-8 key is down in the host input. *)
Definition no_key (h : host) : Prop :=
  forall k, 0 <= k < NUM_KEYS -> u8 (pressed h k) = 0.

(** [j] is the first CHIP-8 key that is down in the host input. *)
Definition first_key (h : host) (j : Z) : Prop :=
  0 <= j < NUM_KEYS /\ u8 (pressed h j) <> 0 /\
  forall k, 0 <= k < j -> u8 (pressed h k) = 0.

(** Column [x] of the sprite row [p] is set (the test of [DRW]). *)
Definition sprite_bit (p x : Z) : bool :=
  negb (Z.land p (Z.shiftr 0x80 x) =? 0).

(** The index [DRW] computes into [screen] for column [x] of row [y]. *)
Definition linear_index (Vx Vy x y : Z) : Z := x + Vx + (y + Vy) * WIDTH.

(** The index of the pixel at wrapped coordinates, in the words of the
    design: column [(Vx + x) mod 64] of line [(Vy + y) mod 32]. *)
Definition wrapped_index (Vx Vy x y : Z) : Z :=
  (Vx + x) mod WIDTH + ((Vy + y) mod HEIGHT) * WIDTH.

(** Row [y] of the sprite at [I]. *)
Definition sprite_row (s : state) (y : Z) : Z :=
  default 0 (RAM s !! Z.to_nat (I s + y)).

(** Some set column among the first [nx] of row [y], whose byte is [p],
    has linear index [k]. *)
Definition row_hits (p Vx Vy y nx k : Z) : bool :=
  existsb (fun x => sprite_bit p x && (k =? linear_index Vx Vy x y))
          (seqZ 0 nx).

(** The same for the first [ny] rows of the sprite at [I]. *)
Definition rows_hit (s : state) (Vx Vy ny k : Z) : bool :=
  existsb (fun y => row_hits (sprite_row s y) Vx Vy y 8 k) (seqZ 0 ny).

(** Some set pixel of the sprite drawn by instruction [i] in state [s] has
    linear index [k]. *)
Definition sprite_hits (i : Z) (s : state) (k : Z) : bool :=
  rows_hit s (reg s (VX i)) (reg s (VY i)) (LSN i) k.

(** The invariant of the loops of [DRW] started in [s0]: memory and [I]
    are untouched, and a cell of [screen] has been toggled exactly if [P]
    holds of its index. *)
Definition drawn (s0 : state) (P : Z -> bool) (t : state) : Prop :=
  RAM t = RAM s0 /\ I t = I s0 /\ length (screen t) = length (screen s0) /\
  forall k c, 0 <= k -> screen s0 !! Z.to_nat k = Some c -> 0 <= c < 256 ->
    screen t !! Z.to_nat k = Some (if P k then Z.lxor c 1 else c).

(** The five bytes of the built-in sprite of hexadecimal digit [d]. *)
Definition glyph (d : Z) : list Z := take 5 (drop (Z.to_nat (5 * d)) font_set).

(** ** Sample states *)

(** An address for [RAM], as a linker could choose it. *)
Definition sample_RAM_addr : Z := 0x4040.

(** No key down, escape up, [rand()] returning 0. *)
Definition idle : host := mkHost false (fun _ => 0) 0.

(** Key [k] held down. *)
Definition holding (k : Z) : host :=
  mkHost false (fun j => if j =? k then 1 else 0) 0.

(** The machine after [initialize] and a [load_source] that read [rom];
    the reset state itself for an empty [rom]. *)
Definition booted (rom : list Z) : state :=
  match load_source rom (initialize sample_RAM_addr) with
  | Ok s => s
  | _ => initialize sample_RAM_addr
  end.

(** ** Further notions *)

(** [n] calls of [_decrement_timers]. *)
Definition ticks (n : nat) (s : state) : state :=
  Nat.iter n _decrement_timers s.

(** The cell of [screen] with index [k]. *)
Definition cell (s : state) (k : Z) : Z :=
  default 0 (screen s !! Z.to_nat k).

(** Some set column among the first [nx] of row [y], whose byte is [p],
    falls on a cell of [s0] that is on. *)
Definition row_collides (s0 : state) (p Vx Vy y nx : Z) : bool :=
  existsb (fun x => sprite_bit p x &&
                    negb (cell s0 (linear_index Vx Vy x y) =? 0))
          (seqZ 0 nx).

(** The same for the first [ny] rows of the sprite at [I]. *)
Definition rows_collide (s : state) (Vx Vy ny : Z) : bool :=
  existsb (fun y => row_collides s (sprite_row s y) Vx Vy y 8) (seqZ 0 ny).

(** Some set pixel of the sprite drawn by instruction [i] in state [s]
    falls on a cell that is on. *)
Definition sprite_collides (i : Z) (s : state) : bool :=
  rows_collide s (reg s (VX i)) (reg s (VY i)) (LSN i).

(** Every cell of [screen] is 0 or 1. *)
Definition pixels_binary (s : state) : Prop :=
  Forall (fun c => c = 0 \/ c = 1) (screen s).

(** [s'] has the memory, the framebuffer and the stack pointer of [s]. *)
Definition untouched (s s' : state) : Prop :=
  RAM s' = RAM s /\ screen s' = screen s /\ sp s' = sp s.

(** An outcome of an instruction run in [s] that is never an exit and, if
    it is a state, has left memory, framebuffer and stack pointer alone. *)
Definition quiet (s : state) (o : outcome state) : Prop :=
  (forall f, o <> Exit f) /\ (forall s', o = Ok s' -> untouched s s').




(** ** Basic facts: the macros *)

Lemma nibble_range (i : Z) (m : Z) (k : Z) :
  0 <= k -> Z.shiftr m k = 15 -> 0 <= Z.shiftr (Z.land i m) k <= 15.
Proof.
  intros Hk Hm. rewrite Z.shiftr_land, Hm.
  change 15 with (Z.ones 4) at 1 2. rewrite Z.land_ones by lia.
  pose proof (Z.mod_pos_bound (Z.shiftr i k) (2 ^ 4)). lia.
Qed.

Lemma VX_range i : 0 <= VX i <= 15.
Proof. apply nibble_range; [lia | reflexivity]. Qed.

Lemma VY_range i : 0 <= VY i <= 15.
Proof. apply nibble_range; [lia | reflexivity]. Qed.

Lemma LSN_range i : 0 <= LSN i <= 15.
Proof.
  unfold LSN. change 15 with (Z.ones 4) at 1 2. rewrite Z.land_ones by lia.
  pose proof (Z.mod_pos_bound i (2 ^ 4)). lia.
Qed.

Lemma ADDR_range i : 0 <= ADDR i <= 4095.
Proof.
  unfold ADDR. change 4095 with (Z.ones 12) at 1 2. rewrite Z.land_ones by lia.
  pose proof (Z.mod_pos_bound i (2 ^ 12)). lia.
Qed.

Lemma u16_range z : 0 <= u16 z < 65536.
Proof. unfold u16. apply Z.mod_pos_bound. lia. Qed.

Lemma u16_small z : 0 <= z < 65536 -> u16 z = z.
Proof. unfold u16. apply Z.mod_small. Qed.

Lemma u8_small z : 0 <= z < 256 -> u8 z = z.
Proof. unfold u8. apply Z.mod_small. Qed.

(** ** Basic facts: array access *)

Lemma rd_lookup (a : list Z) i b :
  0 <= i -> a !! Z.to_nat i = Some b -> rd a i = Ok b.
Proof.
  intros Hi Hb. unfold rd. destruct (Z.leb_spec 0 i); [|lia]. now rewrite Hb.
Qed.

Lemma rd_Ok_inv (a : list Z) i b :
  rd a i = Ok b -> 0 <= i < Z.of_nat (length a) /\ a !! Z.to_nat i = Some b.
Proof.
  unfold rd. destruct (Z.leb_spec 0 i); [|discriminate].
  destruct (a !! Z.to_nat i) eqn:E; [|discriminate].
  intros [= ->]. apply lookup_lt_Some in E. split; [lia | reflexivity].
Qed.

Lemma rd_in_range (a : list Z) i :
  0 <= i < Z.of_nat (length a) -> exists b, rd a i = Ok b.
Proof.
  intros Hi. destruct (lookup_lt_is_Some_2 a (Z.to_nat i)) as [b Hb]; [lia|].
  exists b. apply rd_lookup; [lia | exact Hb].
Qed.

Lemma rd_no_exit (a : list Z) i f : rd a i <> Exit f.
Proof.
  unfold rd. destruct (0 <=? i); [|discriminate].
  destruct (a !! Z.to_nat i); discriminate.
Qed.

Lemma wr_in_range (a : list Z) i b :
  0 <= i < Z.of_nat (length a) -> wr a i b = Ok (<[Z.to_nat i := u8 b]> a).
Proof.
  intros Hi. unfold wr.
  destruct (Z.leb_spec 0 i); [|lia].
  destruct (Z.ltb_spec i (Z.of_nat (length a))); [reflexivity | lia].
Qed.

Lemma wr_Ok_inv (a : list Z) i b a' :
  wr a i b = Ok a' ->
  0 <= i < Z.of_nat (length a) /\ a' = <[Z.to_nat i := u8 b]> a.
Proof.
  unfold wr. destruct (Z.leb_spec 0 i); [|discriminate].
  destruct (Z.ltb_spec i (Z.of_nat (length a))); [|discriminate].
  intros [= <-]. split; [lia | reflexivity].
Qed.

Lemma wr_no_exit (a : list Z) i b f : wr a i b <> Exit f.
Proof.
  unfold wr. destruct (_ && _); discriminate.
Qed.

Lemma wr_length (a : list Z) i b a' : wr a i b = Ok a' -> length a' = length a.
Proof.
  intros H. apply wr_Ok_inv in H as [_ ->]. apply length_insert.
Qed.

(** ** Basic facts: registers *)

Lemma reg_set_reg_eq x b s :
  0 <= x < Z.of_nat (length (v s)) -> reg (set_reg x b s) x = u8 b.
Proof.
  intros Hx. unfold reg, set_reg; simpl.
  rewrite list_lookup_insert_eq by lia. reflexivity.
Qed.

Lemma reg_set_reg_ne x y b s :
  0 <= x -> 0 <= y -> x <> y -> reg (set_reg x b s) y = reg s y.
Proof.
  intros Hx Hy Hxy. unfold reg, set_reg; simpl.
  rewrite list_lookup_insert_ne by lia. reflexivity.
Qed.

(** ** Basic facts: sequencing *)

Lemma bind_Ok_inv {A B : Type} (m : outcome A) (k : A -> outcome B) b :
  (x ← m; k x) = Ok b -> exists a, m = Ok a /\ k a = Ok b.
Proof.
  destruct m; simpl; try discriminate. intros H. eauto.
Qed.

Lemma for_loop_preserves (P : state -> Prop) body :
  (forall j s s', body j s = Ok s' -> P s -> P s') ->
  forall n j s s', for_loop n j body s = Ok s' -> P s -> P s'.
Proof.
  intros Hbody. induction n as [|n IH]; simpl; intros j s s' H HP.
  - now injection H as <-.
  - apply bind_Ok_inv in H as (s1 & H1 & H2). eauto.
Qed.

Lemma for_loop_total (Inv : Z -> state -> Prop) body :
  forall n from s,
  (forall j t, from <= j < from + Z.of_nat n -> Inv j t ->
     exists t', body j t = Ok t' /\ Inv (j + 1) t') ->
  Inv from s ->
  exists s', for_loop n from body s = Ok s' /\ Inv (from + Z.of_nat n) s'.
Proof.
  induction n as [|n IH]; intros from s Hbody Hinv.
  - exists s. split; [reflexivity|]. now replace (from + Z.of_nat 0) with from by lia.
  - destruct (Hbody from s) as (t & Ht & Hinv'); [lia | assumption |].
    destruct (IH (from + 1) t) as (s' & Hs' & Hfin).
    + intros j u Hj. apply Hbody. lia.
    + assumption.
    + exists s'. simpl. rewrite Ht. simpl. split; [exact Hs'|].
      now replace (from + Z.of_nat (S n)) with (from + 1 + Z.of_nat n) by lia.
Qed.

(** ** ADD: sum and carry *)

(** Away from [VF] the instruction is the addition with carry of the
    comment in [execute]. *)
Lemma ADD_distinct_from_VF i s :
  wf s -> VX i <> 0xF -> VY i <> 0xF ->
  exists s', ADD i s = Ok s' /\
    reg s' (VX i) = (reg s (VX i) + reg s (VY i)) mod 256 /\
    reg s' 0xF = if 255 <? reg s (VX i) + reg s (VY i) then 1 else 0.
Proof.
  intros (_ & Hv & _) HX HY. pose proof (VX_range i). pose proof (VY_range i).
  unfold NUM_REGS in Hv.
  eexists. split; [reflexivity|]. split.
  - rewrite reg_set_reg_eq by (unfold set_reg; simpl; rewrite length_insert; lia).
    rewrite !reg_set_reg_ne by lia. reflexivity.
  - rewrite reg_set_reg_ne by lia. rewrite reg_set_reg_eq by lia.
    destruct (Z.gtb_spec (reg s (VX i)) (255 - reg s (VY i)));
      destruct (Z.ltb_spec 255 (reg s (VX i) + reg s (VY i))); try lia; reflexivity.
Qed.

(** C4.  [ADD] stores the carry into [VF] and only then performs
    [v[X] += v[Y]], reading both registers again.  With [Y = 0xF] the sum
    takes the fresh flag as its operand ([V0 = 1], [VF = 5] gives [V0 = 1],
    not 6); with [X = 0xF] the sum lands on top of the flag ([VF = 5],
    [V1 = 3] leaves [VF = 3], not the carry 0). *)
Theorem ADD_flag_store_precedes_sum :
  let s := set_reg 0xF 5 (set_reg 1 3 (set_reg 0 1 (initialize sample_RAM_addr))) in
  (exists s', ADD 0x80F4 s = Ok s' /\ reg s 0 = 1 /\ reg s 0xF = 5 /\
              reg s' 0 = 1 /\ reg s' 0xF = 0) /\
  (exists s', ADD 0x8F14 s = Ok s' /\ reg s 1 = 3 /\ reg s 0xF = 5 /\
              reg s' 0xF = 3).
Proof.
  split; eexists; repeat split; vm_compute; reflexivity.
Qed.

(** ** LDF: the sprite of a digit *)

(** C8, as the claim states it: a digit outside 0..15 makes [LDF] exit.
    With [V0 = 16] the instruction returns normally, with [I = 80]. *)
Lemma LDF_no_operand_check :
  ~ (forall i s, wf s -> ~ (0 <= reg s (VX i) <= 15) ->
       exists f, LDF i s = Exit f).
Proof.
  intros H.
  destruct (H 0xF029 (set_reg 0 16 (initialize sample_RAM_addr))) as (f & Hf).
  - repeat split.
  - vm_compute. intros [_ Hle]. now apply Hle.
  - discriminate Hf.
Qed.

(** C8, amended.  [LDF] never fails: it sets [I] to five times [VX] and
    changes nothing else.  For [VX] in 0..15 and the font where
    [initialize] put it, that is where the sprite of digit [VX] starts. *)
Theorem LDF_sets_I_to_five_VX i s :
  0 <= reg s (VX i) < 256 ->
  exists s', LDF i s = Ok s' /\ s' = set_I (5 * reg s (VX i)) s /\
    (reg s (VX i) <= 15 -> take (Z.to_nat SIZE_FS) (RAM s) = font_set ->
       take 5 (drop (Z.to_nat (I s')) (RAM s')) = glyph (reg s (VX i))).
Proof.
  intros Hb. eexists. split; [reflexivity|].
  rewrite u16_small by lia. split; [f_equal; lia|].
  intros Hd Hfont. simpl. unfold glyph. rewrite <- Hfont.
  replace (reg s (VX i) * 5) with (5 * reg s (VX i)) by lia.
  rewrite !take_drop_commute, take_take. do 2 f_equal. unfold SIZE_FS. lia.
Qed.

Lemma LDF_sets_I_to_five_VX_witness :
  (exists s', LDF 0xF029 (set_reg 0 0xA (initialize sample_RAM_addr)) = Ok s' /\
     I s' = 50 /\ take 5 (drop 50 (RAM s')) = [0xF0; 0x90; 0xF0; 0x90; 0x90]) /\
  (exists s', LDF 0xF029 (set_reg 0 0x10 (initialize sample_RAM_addr)) = Ok s' /\
     I s' = 80).
Proof.
  split.
  - destruct (LDF_sets_I_to_five_VX 0xF029
                (set_reg 0 0xA (initialize sample_RAM_addr)))
      as (s' & H & E & Hg); [vm_compute; split; [discriminate | reflexivity] |].
    subst s'. eexists. split; [exact H|]. split; [reflexivity|].
    apply Hg; [vm_compute; discriminate | reflexivity].
  - destruct (LDF_sets_I_to_five_VX 0xF029
                (set_reg 0 0x10 (initialize sample_RAM_addr)))
      as (s' & H & E & _); [vm_compute; split; [discriminate | reflexivity] |].
    subst s'. eexists. split; [exact H | reflexivity].
Defined.

(** ** STA and LDA: the index register *)

Lemma STA_body_frame j s s' :
  STA_body j s = Ok s' ->
  I s' = I s /\ length (RAM s') = length (RAM s) /\ v s' = v s.
Proof.
  unfold STA_body. intros H. apply bind_Ok_inv in H as (m & Hm & [= <-]).
  simpl. apply wr_length in Hm. auto.
Qed.

Lemma LDA_body_frame j s s' :
  LDA_body j s = Ok s' ->
  I s' = I s /\ RAM s' = RAM s /\ length (v s') = length (v s).
Proof.
  unfold LDA_body. intros H. apply bind_Ok_inv in H as (b & Hb & [= <-]).
  simpl. rewrite length_insert. auto.
Qed.

Lemma STA_in_range i s :
  wf s -> 0 <= I s -> I s + VX i < SIZE_MEM -> exists s', STA i s = Ok s'.
Proof.
  intros (HR & _) HI Hlim. pose proof (VX_range i) as HX. unfold STA.
  destruct (for_loop_total
              (fun _ t => I t = I s /\ length (RAM t) = length (RAM s))
              STA_body (Z.to_nat (VX i + 1)) 0 s) as (s' & Hs' & _).
  - intros j t Hj (HIt & HRt). unfold STA_body.
    rewrite wr_in_range by lia. simpl. eexists. split; [reflexivity|].
    simpl. rewrite length_insert. auto.
  - auto.
  - eauto.
Qed.

Lemma LDA_in_range i s :
  wf s -> 0 <= I s -> I s + VX i < SIZE_MEM -> exists s', LDA i s = Ok s'.
Proof.
  intros (HR & _) HI Hlim. pose proof (VX_range i) as HX. unfold LDA.
  destruct (for_loop_total
              (fun _ t => I t = I s /\ RAM t = RAM s)
              LDA_body (Z.to_nat (VX i + 1)) 0 s) as (s' & Hs' & _).
  - intros j t Hj (HIt & HRt). unfold LDA_body.
    destruct (rd_in_range (RAM t) (I t + j)) as (b & Hb); [rewrite HRt; lia|].
    rewrite Hb. simpl. eexists. split; [reflexivity|]. simpl. auto.
  - auto.
  - eauto.
Qed.

(** Whenever [STA] or [LDA] returns, [I] is what it was. *)
Lemma STA_LDA_I_frame i s s' :
  STA i s = Ok s' \/ LDA i s = Ok s' -> I s' = I s.
Proof.
  intros [H | H].
  - eapply (for_loop_preserves (fun t => I t = I s) STA_body);
      [| exact H | reflexivity].
    intros j t t' Ht <-. now apply STA_body_frame in Ht.
  - eapply (for_loop_preserves (fun t => I t = I s) LDA_body);
      [| exact H | reflexivity].
    intros j t t' Ht <-. now apply LDA_body_frame in Ht.
Qed.

(** C10, as the claim states it: for every [X] and every starting [I] the
    block transfers are carried out and leave [I] as it was.  With
    [I = 0xFFF] and [X = 1] neither returns a state: the second byte is
    [RAM[4096]]. *)
Lemma STA_LDA_past_RAM_leave_no_state :
  ~ (forall i s, wf s -> 0 <= I s < 65536 ->
       exists s1 s2, STA i s = Ok s1 /\ I s1 = I s /\
                     LDA i s = Ok s2 /\ I s2 = I s).
Proof.
  intros H.
  destruct (H 0xF155 (set_I 0xFFF (initialize sample_RAM_addr)))
    as (s1 & _ & H1 & _).
  - repeat split.
  - vm_compute. split; [discriminate | reflexivity].
  - vm_compute in H1. discriminate H1.
Qed.

(** C10, amended.  With [I .. I+X] inside [RAM], the register-block store
    and the register-block load are carried out and leave [I] as it was:
    the transfer never increments [I]. *)
Theorem STA_LDA_leave_I_inside_RAM i s :
  wf s -> 0 <= I s -> I s + VX i < SIZE_MEM ->
  exists s1 s2, STA i s = Ok s1 /\ I s1 = I s /\
                LDA i s = Ok s2 /\ I s2 = I s.
Proof.
  intros Hwf HI Hlim.
  destruct (STA_in_range i s) as (s1 & H1); auto.
  destruct (LDA_in_range i s) as (s2 & H2); auto.
  exists s1, s2. split; [exact H1|].
  split; [apply (STA_LDA_I_frame i s); now left|].
  split; [exact H2|]. apply (STA_LDA_I_frame i s); now right.
Qed.

Lemma STA_LDA_leave_I_inside_RAM_witness :
  exists s1 s2,
    STA 0xF255 (set_I 0x300 (set_reg 2 7 (initialize sample_RAM_addr))) = Ok s1 /\
    I s1 = 0x300 /\
    LDA 0xF255 (set_I 0x300 (set_reg 2 7 (initialize sample_RAM_addr))) = Ok s2 /\
    I s2 = 0x300.
Proof.
  exact (STA_LDA_leave_I_inside_RAM 0xF255
           (set_I 0x300 (set_reg 2 7 (initialize sample_RAM_addr)))
           ltac:(repeat split) ltac:(vm_compute; discriminate) eq_refl).
Defined.

(** ** One turn of the loop *)

Lemma fetch_word_at s :
  fetch s = i ← word_at s (PC s); Ok (i, skip s).
Proof.
  unfold fetch, word_at.
  destruct (rd (RAM s) (PC s)); simpl; try reflexivity.
  destruct (rd (RAM s) (PC s + 1)); reflexivity.
Qed.

Lemma word_at_Ok_range s a i :
  wf s -> word_at s a = Ok i -> 0 <= a <= 4094.
Proof.
  intros (HR & _) H. unfold word_at in H.
  apply bind_Ok_inv in H as (hi & Hhi & H).
  apply bind_Ok_inv in H as (lo & Hlo & _).
  apply rd_Ok_inv in Hhi as (? & _). apply rd_Ok_inv in Hlo as (? & _).
  unfold SIZE_MEM in HR. lia.
Qed.

Lemma rd_host_keys h k :
  0 <= k < NUM_KEYS -> rd (host_keys h) k = Ok (u8 (pressed h k)).
Proof.
  intros Hk. apply rd_lookup; [lia|]. unfold host_keys.
  rewrite list_lookup_fmap, lookup_seqZ_lt by lia. simpl.
  do 3 f_equal. lia.
Qed.

Lemma length_host_keys h : Z.of_nat (length (host_keys h)) = NUM_KEYS.
Proof. reflexivity. Qed.

(** What a turn does when the instruction at [PC] is [i] and the escape
    key is up. *)
Lemma cycle_unfold a h s i :
  escape h = false -> word_at s (PC s) = Ok i ->
  cycle a h s =
    s3 ← execute a (rnd h) i (skip (set_keys (host_keys h) s));
    Ok (clear_draw s3).
Proof.
  intros He Hw. unfold cycle, _set_keys. rewrite He. simpl.
  rewrite fetch_word_at. simpl. unfold word_at in *. simpl. rewrite Hw.
  reflexivity.
Qed.

(** ** LDK: waiting for a key *)

Lemma execute_LDK a r i s :
  MSN i = 0xF -> BYTE i = 0x0A -> execute a r i s = LDK i s.
Proof. intros HM HB. unfold execute. rewrite HM, HB. reflexivity. Qed.

Lemma LDK_from_none n j i s :
  (forall k, j <= k < j + Z.of_nat n -> rd (keys s) k = Ok 0) ->
  LDK_from n j i s = Ok (set_PC (u16 (PC s - 2)) s).
Proof.
  revert j. induction n as [|n IH]; intros j Hz; simpl; [reflexivity|].
  rewrite Hz by lia. simpl. apply IH. intros k Hk. apply Hz. lia.
Qed.

Lemma LDK_from_first n j i s j0 c :
  j <= j0 < j + Z.of_nat n ->
  rd (keys s) j0 = Ok c -> c <> 0 ->
  (forall k, j <= k < j0 -> rd (keys s) k = Ok 0) ->
  LDK_from n j i s = Ok (set_reg (VX i) j0 s).
Proof.
  revert j. induction n as [|n IH]; intros j Hj Hc Hnz Hz; simpl; [lia|].
  destruct (Z.eq_dec j j0) as [->|Hne].
  - rewrite Hc. simpl. destruct (Z.eqb_spec c 0); [contradiction | reflexivity].
  - rewrite Hz by lia. simpl. apply IH; try assumption; [lia|].
    intros k Hk. apply Hz. lia.
Qed.

(** A turn on the wait instruction with no key down changes [keys] and
    nothing else. *)
Lemma cycle_LDK_no_key a h s i :
  wf s -> escape h = false -> word_at s (PC s) = Ok i ->
  MSN i = 0xF -> BYTE i = 0x0A -> no_key h ->
  exists s', cycle a h s = Ok s' /\
    wf s' /\ PC s' = PC s /\ RAM s' = RAM s /\ v s' = v s /\ I s' = I s /\
    sp s' = sp s /\ screen s' = screen s.
Proof.
  intros Hwf He Hw HM HB Hno.
  pose proof (word_at_Ok_range _ _ _ Hwf Hw) as HPC.
  rewrite (cycle_unfold a h s i He Hw), execute_LDK by assumption.
  unfold LDK. rewrite LDK_from_none.
  - simpl. eexists. split; [reflexivity|].
    assert (HPC' : u16 (u16 (PC s + 2) - 2) = PC s).
    { rewrite (u16_small (PC s + 2)) by lia. rewrite u16_small by lia. lia. }
    destruct Hwf as (? & ? & ? & ?).
    unfold clear_draw; simpl.
    destruct (draw s =? 0); simpl; rewrite HPC'; repeat split; assumption.
  - intros k Hk. simpl. rewrite rd_host_keys by (unfold NUM_KEYS, NUM_REGS in *; lia).
    now rewrite Hno by (unfold NUM_KEYS, NUM_REGS in *; lia).
Qed.

(** C7.  On the wait instruction [Fx0A]: through any number of turns with
    no key down, [PC] stays on the instruction and neither memory nor
    registers change; on a turn where a key is down, that one turn stores
    the index of the first such key into [VX] and leaves [PC] on the next
    instruction, which the following turn fetches. *)
Theorem LDK_waits_then_stores a s i :
  wf s -> word_at s (PC s) = Ok i -> MSN i = 0xF -> BYTE i = 0x0A ->
  (forall hs, Forall (fun h => escape h = false /\ no_key h) hs ->
     exists s', cycles a hs s = Ok s' /\
       PC s' = PC s /\ RAM s' = RAM s /\ v s' = v s) /\
  (forall h j, escape h = false -> first_key h j ->
     exists s', cycle a h s = Ok s' /\
       reg s' (VX i) = j /\ PC s' = PC s + 2 /\ RAM s' = RAM s).
Proof.
  intros Hwf Hw HM HB. split.
  - intros hs Hhs. revert s Hwf Hw.
    induction Hhs as [|h hs (He & Hno) _ IH]; intros s Hwf Hw.
    + exists s. repeat split; reflexivity.
    + destruct (cycle_LDK_no_key a h s i) as (s1 & H1 & Hwf1 & HP & HR & Hv & _);
        try assumption.
      destruct (IH s1) as (s' & Hs' & HP' & HR' & Hv'); [assumption | |].
      * unfold word_at in *. now rewrite HP, HR.
      * exists s'. simpl. rewrite H1. simpl.
        split; [exact Hs'|]. repeat split; congruence.
  - intros h j He (Hj & Hdown & Hfirst).
    pose proof (word_at_Ok_range _ _ _ Hwf Hw) as HPC.
    pose proof (VX_range i) as HX.
    rewrite (cycle_unfold a h s i He Hw), execute_LDK by assumption.
    unfold LDK.
    rewrite (LDK_from_first _ _ _ _ j (u8 (pressed h j))).
    + simpl. eexists. split; [reflexivity|].
      destruct Hwf as (_ & Hv & _). unfold NUM_REGS, NUM_KEYS in *.
      assert (Hreg : reg (set_reg (VX i) j
                (skip (set_keys (host_keys h) s))) (VX i) = j).
      { rewrite reg_set_reg_eq by (simpl; lia). apply u8_small. lia. }
      unfold clear_draw; simpl.
      destruct (draw s =? 0); simpl; (split; [exact Hreg|]);
        rewrite u16_small by lia; auto.
    + unfold NUM_KEYS, NUM_REGS in *. simpl. lia.
    + simpl. now apply rd_host_keys.
    + exact Hdown.
    + intros k Hk. simpl. rewrite rd_host_keys by lia. now rewrite Hfirst.
Qed.

Lemma LDK_waits_then_stores_witness :
  (exists s', cycles sample_RAM_addr [idle; idle; idle] (booted [0xF3; 0x0A]) = Ok s' /\
              PC s' = 0x200) /\
  (exists s', cycle sample_RAM_addr (holding 7) (booted [0xF3; 0x0A]) = Ok s' /\
              reg s' 3 = 7 /\ PC s' = 0x202).
Proof.
  destruct (LDK_waits_then_stores sample_RAM_addr (booted [0xF3; 0x0A]) 0xF30A)
    as (Hwait & Hkey); [repeat split | reflexivity | reflexivity | reflexivity |].
  split.
  - destruct (Hwait [idle; idle; idle]) as (s' & Hs' & HPC & _).
    + repeat constructor; intros k _; reflexivity.
    + exists s'. split; [exact Hs' | exact HPC].
  - destruct (Hkey (holding 7) 7) as (s' & Hs' & Hreg & HPC & _).
    + reflexivity.
    + split; [unfold NUM_KEYS; lia|]. split; [vm_compute; discriminate|].
      intros k Hk. unfold holding; simpl.
      destruct (Z.eqb_spec k 7); [lia | reflexivity].
    + exists s'. split; [exact Hs'|]. split; [exact Hreg | exact HPC].
Defined.

(** ** The call stack *)

Lemma join_bytes w :
  0 <= w < 65536 -> Z.lor (Z.shiftl (u8 (Z.shiftr w 8)) 8) (u8 w) = w.
Proof.
  intros Hw. apply Z.bits_inj'. intros n Hn. rewrite Z.lor_spec.
  unfold u8. change 256 with (2 ^ 8).
  destruct (Z.ltb_spec n 8).
  - rewrite Z.shiftl_spec_low by lia. simpl.
    now rewrite Z.mod_pow2_bits_low by lia.
  - rewrite Z.shiftl_spec by lia.
    rewrite (Z.mod_pow2_bits_high w) by lia. rewrite orb_false_r.
    destruct (Z.ltb_spec (n - 8) 8).
    + rewrite Z.mod_pow2_bits_low by lia. rewrite Z.shiftr_spec by lia.
      f_equal. lia.
    + rewrite Z.mod_pow2_bits_high by lia.
      rewrite <- (Z.mod_small w (2 ^ 16)) by lia.
      now rewrite Z.mod_pow2_bits_high by lia.
Qed.

Lemma load16_RAM a p s t : RAM s = RAM t -> load16 a p s = load16 a p t.
Proof. unfold load16. now intros ->. Qed.

Lemma store16_Ok_inv a p x s s' :
  store16 a p x s = Ok s' ->
  0 <= p - a /\ p - a + 1 < Z.of_nat (length (RAM s)) /\
  s' = set_RAM (<[Z.to_nat (p - a + 1) := u8 (Z.shiftr (u16 x) 8)]>
                  (<[Z.to_nat (p - a) := u8 (u16 x)]> (RAM s))) s.
Proof.
  unfold store16. intros H.
  apply bind_Ok_inv in H as (m1 & H1 & H).
  apply bind_Ok_inv in H as (m2 & H2 & [= <-]).
  apply wr_Ok_inv in H1 as (Hr1 & ->). apply wr_Ok_inv in H2 as (Hr2 & ->).
  rewrite length_insert in Hr2. repeat split; lia.
Qed.

Lemma store16_in_range a p x s :
  0 <= p - a -> p - a + 1 < Z.of_nat (length (RAM s)) ->
  exists s', store16 a p x s = Ok s'.
Proof.
  intros H0 H1. unfold store16.
  rewrite wr_in_range by lia. simpl.
  rewrite wr_in_range by (rewrite length_insert; lia). simpl. eauto.
Qed.

Lemma load16_store16 a p x s s' :
  store16 a p x s = Ok s' -> load16 a p s' = Ok (u16 x).
Proof.
  intros H. apply store16_Ok_inv in H as (H0 & H1 & ->).
  unfold load16; simpl.
  rewrite (rd_lookup _ (p - a) (u8 (u16 x))); [simpl | lia |].
  - rewrite (rd_lookup _ (p - a + 1) (u8 (Z.shiftr (u16 x) 8))); [simpl | lia |].
    + f_equal. apply join_bytes, u16_range.
    + apply list_lookup_insert_eq. rewrite length_insert. lia.
  - rewrite list_lookup_insert_ne by lia.
    apply list_lookup_insert_eq. lia.
Qed.

(** What a [push] that returns has done. *)
Lemma push_Ok_inv a x s s' :
  push a x s = Ok s' ->
  STACK_UP <= sp s /\ sp s' = sp s - 2 /\ load16 a (sp s) s' = Ok (u16 x) /\
  length (RAM s') = length (RAM s) /\
  PC s' = PC s /\ I s' = I s /\ v s' = v s /\ keys s' = keys s /\
  screen s' = screen s /\ draw s' = draw s.
Proof.
  unfold push. destruct (Z.ltb_spec (sp s) STACK_UP) as [|Hup]; [discriminate|].
  intros Hp. apply bind_Ok_inv in Hp as (s1 & H1 & [= <-]).
  pose proof (load16_store16 _ _ _ _ _ H1) as Hl.
  apply store16_Ok_inv in H1 as (_ & _ & ->). simpl.
  rewrite !length_insert. repeat split; auto.
Qed.

(** [push] stores whenever its pointer test passes and the two bytes it
    writes lie inside [RAM]. *)
Lemma push_in_range a x s :
  STACK_UP <= sp s -> 0 <= sp s - a ->
  sp s - a + 1 < Z.of_nat (length (RAM s)) ->
  exists s', push a x s = Ok s'.
Proof.
  intros Hup H0 H1. unfold push.
  destruct (Z.ltb_spec (sp s) STACK_UP); [lia|].
  destruct (store16_in_range a (sp s) x s) as (s1 & ->); [lia | lia |].
  simpl. eauto.
Qed.

(** Any number of pushes go through while the pointer stays at or above
    the number [STACK_UP] and inside [RAM]. *)
Lemma push_all_in_range a addrs : forall s,
  STACK_UP <= sp s - 2 * (Z.of_nat (length addrs) - 1) ->
  0 <= sp s - a - 2 * (Z.of_nat (length addrs) - 1) ->
  sp s - a + 1 < Z.of_nat (length (RAM s)) ->
  exists s', push_all a addrs s = Ok s' /\
    sp s' = sp s - 2 * Z.of_nat (length addrs) /\
    length (RAM s') = length (RAM s).
Proof.
  induction addrs as [|x rest IH]; intros s Hup H0 H1; simpl in *.
  - exists s. repeat split; lia.
  - destruct (push_in_range a x s) as (s1 & Hs1); [lia | lia | lia |].
    rewrite Hs1. simpl.
    apply push_Ok_inv in Hs1 as (_ & Hsp & _ & HR & _).
    destruct (IH s1) as (s' & Hs' & Hsp' & HR'); [lia | lia | lia |].
    exists s'. split; [exact Hs'|]. split; lia.
Qed.

Lemma initialize_stack a :
  sp (initialize a) = a + STACK_LOW /\
  Z.of_nat (length (RAM (initialize a))) = SIZE_MEM.
Proof. split; reflexivity. Qed.

(** With [RAM] at address 0 the test of [push] would be the intended one:
    sixteen pushes, then "Stack overflow". *)
Lemma push_17th_refused_if_RAM_at_0 addrs x :
  length addrs = 16%nat ->
  exists s16, push_all 0 addrs (initialize 0) = Ok s16 /\
    push 0 x s16 = Exit Stack_overflow.
Proof.
  intros Hlen. destruct (initialize_stack 0) as (Hsp0 & HR0).
  destruct (push_all_in_range 0 addrs (initialize 0)) as (s16 & H16 & Hsp & _);
    [rewrite ?Hlen, ?Hsp0, ?HR0; unfold STACK_UP, STACK_LOW, SIZE_MEM; lia ..|].
  exists s16. split; [exact H16|]. unfold push.
  rewrite Hsp, Hlen. reflexivity.
Qed.

(** C2.  Wherever [RAM] really is (any address from 2 up), the seventeenth
    push after a reset is carried out like the sixteen before it: [push]
    compares [sp] with the number [STACK_UP] rather than with
    [&RAM[STACK_UP]], so the pointer passes the test and the address is
    written at [RAM[0xE9E]], one slot below the stack area. *)
Theorem push_17th_is_carried_out a addrs x :
  2 <= a -> length addrs = 16%nat ->
  exists s16 s17,
    push_all a addrs (initialize a) = Ok s16 /\
    push a x s16 = Ok s17 /\
    sp s16 - a = STACK_UP - 2 /\
    load16 a (a + 0xE9E) s17 = Ok (u16 x).
Proof.
  intros Ha Hlen. destruct (initialize_stack a) as (Hsp0 & HR0).
  destruct (push_all_in_range a addrs (initialize a)) as (s16 & H16 & Hsp & HR);
    [rewrite ?Hlen, ?Hsp0, ?HR0; unfold STACK_UP, STACK_LOW, SIZE_MEM; lia ..|].
  rewrite Hlen, Hsp0 in Hsp.
  destruct (push_in_range a x s16) as (s17 & H17);
    [rewrite ?HR, ?HR0; unfold STACK_UP, STACK_LOW, SIZE_MEM in *; lia ..|].
  exists s16, s17. split; [exact H16|]. split; [exact H17|].
  split; [unfold STACK_UP, STACK_LOW in *; lia|].
  apply push_Ok_inv in H17 as (_ & _ & Hl & _).
  replace (a + 0xE9E) with (sp s16) by (unfold STACK_LOW in *; lia).
  exact Hl.
Qed.

Lemma push_17th_is_carried_out_witness :
  exists s16 s17,
    push_all sample_RAM_addr
      [0x200; 0x202; 0x204; 0x206; 0x208; 0x20A; 0x20C; 0x20E;
       0x210; 0x212; 0x214; 0x216; 0x218; 0x21A; 0x21C; 0x21E]
      (initialize sample_RAM_addr) = Ok s16 /\
    push sample_RAM_addr 0x220 s16 = Ok s17 /\
    load16 sample_RAM_addr (sample_RAM_addr + 0xE9E) s17 = Ok 0x220.
Proof.
  destruct (push_17th_is_carried_out sample_RAM_addr
      [0x200; 0x202; 0x204; 0x206; 0x208; 0x20A; 0x20C; 0x20E;
       0x210; 0x212; 0x214; 0x216; 0x218; 0x21A; 0x21C; 0x21E] 0x220)
    as (s16 & s17 & H16 & H17 & _ & Hl);
    [unfold sample_RAM_addr; lia | reflexivity |].
  exists s16, s17. split; [exact H16|]. split; [exact H17 | exact Hl].
Defined.

(** ** CALL and RET *)

Lemma cycles_cons a h hs s :
  cycles a (h :: hs) s = s' ← cycle a h s; cycles a hs s'.
Proof. reflexivity. Qed.

Lemma clear_draw_fields s :
  RAM (clear_draw s) = RAM s /\ PC (clear_draw s) = PC s /\
  I (clear_draw s) = I s /\ v (clear_draw s) = v s /\
  keys (clear_draw s) = keys s /\ sp (clear_draw s) = sp s /\
  screen (clear_draw s) = screen s.
Proof. unfold clear_draw. destruct (draw s =? 0); repeat split. Qed.

Lemma execute_CALL a r i s : MSN i = 0x2 -> execute a r i s = CALL a i s.
Proof. intros HM. unfold execute. now rewrite HM. Qed.

Lemma execute_RET a r s : execute a r 0x00EE s = RET a s.
Proof. reflexivity. Qed.

(** A turn on [2NNN] that returns: what is on the stack afterwards. *)
Lemma cycle_CALL a h s i s1 :
  wf s -> escape h = false -> word_at s (PC s) = Ok i -> MSN i = 0x2 ->
  cycle a h s = Ok s1 ->
  load16 a (sp s) s1 = Ok (PC s) /\ sp s1 = sp s - 2 /\ PC s1 = ADDR i /\
  wf s1.
Proof.
  intros Hwf He Hw HM Hc.
  pose proof (word_at_Ok_range _ _ _ Hwf Hw) as HPC.
  rewrite (cycle_unfold a h s i He Hw), execute_CALL in Hc by assumption.
  apply bind_Ok_inv in Hc as (s3 & H3 & [= <-]).
  unfold CALL in H3. apply bind_Ok_inv in H3 as (s' & Hp & [= <-]).
  apply push_Ok_inv in Hp
    as (_ & Hsp & Hl & HR & _ & _ & Hv & Hk & Hscr & _).
  simpl in *.
  destruct (clear_draw_fields (set_PC (ADDR i) s'))
    as (ER & EP & _ & Ev & Ek & Es & Escr).
  simpl in *. repeat split.
  - rewrite (load16_RAM a _ _ s') by exact ER. rewrite Hl. f_equal.
    rewrite (u16_small (PC s + 2)) by lia.
    rewrite !u16_small; rewrite ?u16_small; lia.
  - rewrite Es. exact Hsp.
  - exact EP.
  - rewrite ER, HR. apply Hwf.
  - rewrite Ev, Hv. apply Hwf.
  - rewrite Ek, Hk. apply length_host_keys.
  - rewrite Escr, Hscr. apply Hwf.
Qed.

(** A turn on [00EE] with [x] in the slot above [sp]. *)
Lemma cycle_RET a h s x :
  escape h = false -> word_at s (PC s) = Ok 0x00EE ->
  sp s <> STACK_LOW -> load16 a (sp s + 2) s = Ok x ->
  exists s', cycle a h s = Ok s' /\ PC s' = u16 (x + 2) /\ sp s' = sp s + 2.
Proof.
  intros He Hw Hne Hl.
  rewrite (cycle_unfold a h s _ He Hw), execute_RET.
  unfold RET, pop. simpl.
  destruct (Z.eqb_spec (sp s) STACK_LOW); [contradiction|].
  rewrite (load16_RAM a _ _ s) by reflexivity. rewrite Hl. simpl.
  eexists. split; [reflexivity|].
  match goal with |- PC (clear_draw ?t) = _ /\ _ =>
    destruct (clear_draw_fields t) as (_ & -> & _ & _ & _ & -> & _) end.
  split; reflexivity.
Qed.

(** C5, as the claim states it: the address [CALL] leaves on the stack is
    the one after the [CALL].  A [CALL] at [0x200] leaves [0x200] there. *)
Lemma CALL_does_not_store_resume_address :
  ~ (forall a h s i s1,
       wf s -> escape h = false -> word_at s (PC s) = Ok i -> MSN i = 0x2 ->
       cycle a h s = Ok s1 -> load16 a (sp s) s1 = Ok (PC s + 2)).
Proof.
  intros H.
  pose (s0 := booted [0x22; 0x04; 0x00; 0x00; 0x00; 0xEE]).
  pose (s1 := match cycle sample_RAM_addr idle s0 with Ok t => t | _ => s0 end).
  assert (E : cycle sample_RAM_addr idle s0 = Ok s1) by (vm_compute; reflexivity).
  assert (Hwf : wf s0) by (repeat split).
  specialize (H sample_RAM_addr idle s0 0x2204 s1 Hwf eq_refl eq_refl eq_refl E).
  vm_compute in H. discriminate H.
Qed.

(** C5, amended.  The address [CALL] leaves on the stack is its own: the
    program counter, which [fetch] has advanced, less 2.  [RET] sets the
    program counter to the popped address plus 2. *)
Theorem CALL_stores_own_address_RET_adds_2 a h s i :
  wf s -> escape h = false -> word_at s (PC s) = Ok i ->
  (MSN i = 0x2 -> forall s1, cycle a h s = Ok s1 ->
     load16 a (sp s) s1 = Ok (PC s) /\ sp s1 = sp s - 2 /\ PC s1 = ADDR i) /\
  (i = 0x00EE -> forall x, sp s <> STACK_LOW -> load16 a (sp s + 2) s = Ok x ->
     exists s', cycle a h s = Ok s' /\ PC s' = u16 (x + 2) /\ sp s' = sp s + 2).
Proof.
  intros Hwf He Hw. split.
  - intros HM s1 Hc.
    destruct (cycle_CALL a h s i s1) as (? & ? & ? & _); auto.
  - intros -> x Hne Hl. now apply cycle_RET.
Qed.

Lemma CALL_stores_own_address_RET_adds_2_witness :
  exists s1 s2,
    cycle sample_RAM_addr idle (booted [0x22; 0x04; 0x00; 0x00; 0x00; 0xEE]) = Ok s1 /\
    load16 sample_RAM_addr (sample_RAM_addr + STACK_LOW) s1 = Ok 0x200 /\
    PC s1 = 0x204 /\
    cycle sample_RAM_addr idle s1 = Ok s2 /\ PC s2 = 0x202.
Proof.
  pose (s0 := booted [0x22; 0x04; 0x00; 0x00; 0x00; 0xEE]).
  pose (s1 := match cycle sample_RAM_addr idle s0 with Ok t => t | _ => s0 end).
  assert (E : cycle sample_RAM_addr idle s0 = Ok s1) by (vm_compute; reflexivity).
  destruct (CALL_stores_own_address_RET_adds_2 sample_RAM_addr idle s0 0x2204)
    as (HCALL & _); [repeat split | reflexivity | reflexivity |].
  destruct (HCALL eq_refl s1 E) as (Hl & _ & HPC).
  destruct (CALL_stores_own_address_RET_adds_2 sample_RAM_addr idle s1 0x00EE)
    as (_ & HRET);
    [vm_compute; repeat split | reflexivity | vm_compute; reflexivity |].
  destruct (HRET eq_refl 0x200) as (s2 & H2 & HPC2 & _);
    [vm_compute; discriminate | vm_compute; reflexivity |].
  exists s1, s2. split; [exact E|]. split; [exact Hl|]. split; [exact HPC|].
  split; [exact H2 | exact HPC2].
Defined.

(** C6.  A [CALL] that is carried out (its push not refused), to a
    subroutine whose first instruction is [RET]: the turn after the [CALL]
    executes that [RET], unless the emptiness test of [pop] stops it, and
    leaves the program counter on the instruction that follows the
    [CALL], with the stack pointer where it was. *)
Theorem CALL_then_RET_resumes_after_CALL a h1 h2 s i s1 :
  wf s -> escape h1 = false -> escape h2 = false ->
  word_at s (PC s) = Ok i -> MSN i = 0x2 ->
  cycle a h1 s = Ok s1 ->
  word_at s1 (PC s1) = Ok 0x00EE ->
  sp s1 <> STACK_LOW ->
  exists s2, cycle a h2 s1 = Ok s2 /\ PC s2 = PC s + 2 /\ sp s2 = sp s.
Proof.
  intros Hwf He1 He2 Hw HM Hc Hret Hne.
  pose proof (word_at_Ok_range _ _ _ Hwf Hw) as HPC.
  destruct (cycle_CALL a h1 s i s1) as (Hl & Hsp & _ & _); auto.
  destruct (cycle_RET a h2 s1 (PC s)) as (s2 & H2 & HPC2 & Hsp2); auto.
  - now replace (sp s1 + 2) with (sp s) by lia.
  - exists s2. split; [exact H2|]. rewrite HPC2, u16_small by lia.
    split; lia.
Qed.

Lemma CALL_then_RET_resumes_after_CALL_witness :
  exists s2,
    cycles sample_RAM_addr [idle; idle]
      (booted [0x22; 0x04; 0x00; 0x00; 0x00; 0xEE]) = Ok s2 /\
    PC s2 = 0x202.
Proof.
  pose (s0 := booted [0x22; 0x04; 0x00; 0x00; 0x00; 0xEE]).
  pose (s1 := match cycle sample_RAM_addr idle s0 with Ok t => t | _ => s0 end).
  assert (E : cycle sample_RAM_addr idle s0 = Ok s1) by (vm_compute; reflexivity).
  destruct (CALL_then_RET_resumes_after_CALL sample_RAM_addr idle idle s0 0x2204 s1)
    as (s2 & H2 & HPC & _);
    [repeat split | reflexivity | reflexivity | reflexivity | reflexivity
    | exact E | vm_compute; reflexivity | vm_compute; discriminate |].
  exists s2. split; [|exact HPC].
  change (cycles sample_RAM_addr [idle; idle] s0 = Ok s2).
  rewrite cycles_cons, E.
  change (cycles sample_RAM_addr [idle] s1 = Ok s2).
  rewrite cycles_cons, H2. reflexivity.
Defined.

(** ** The decoder, case by case *)

(** [execute] runs one of the instruction routines or reports an unknown
    instruction; a property of all of those is a property of [execute]. *)
Lemma execute_cases a r i s (P : outcome state -> Prop) :
  P (CLS s) -> P (RET a s) -> P (JP i s) -> P (CALL a i s) ->
  P (SE i s) -> P (SNEI i s) -> P (SR i s) -> P (LDB i s) -> P (ADDI i s) ->
  P (LDR i s) -> P (OR i s) -> P (AND i s) -> P (XOR i s) -> P (ADD i s) ->
  P (SUB i s) -> P (SHR i s) -> P (SUBN i s) -> P (SHL i s) -> P (SNE i s) ->
  P (LDI i s) -> P (JPR i s) -> P (RND r i s) ->
  P (s' ← DRW i s; Ok (set_draw 1 s')) ->
  P (SKP i s) -> P (SKNP i s) -> P (LDD i s) -> P (LDK i s) -> P (STD i s) ->
  P (STS i s) -> P (IINC i s) -> P (LDF i s) -> P (BCD i s) -> P (STA i s) ->
  P (LDA i s) -> P (unknown i s) ->
  P (execute a r i s).
Proof.
  intros. unfold execute. cbv zeta.
  repeat match goal with
         | |- P (match ?x with _ => _ end) => destruct x
         end; assumption.
Qed.

(** ** What every instruction keeps *)

Ltac inv_fields :=
  unfold inv, wf, skip, set_reg in *; simpl in *;
  rewrite ?length_insert, ?length_replicate;
  repeat split; try tauto; try apply u16_range; try lia.

Ltac inv_straight :=
  let s' := fresh "s'" in
  intros s' [= <-];
  repeat match goal with
         | |- context [if ?b then _ else _] => destruct b
         end;
  inv_fields.

Lemma for_loop_inv body :
  (forall j s s', body j s = Ok s' -> inv s -> inv s') ->
  forall n j s s', for_loop n j body s = Ok s' -> inv s -> inv s'.
Proof. apply (for_loop_preserves inv). Qed.

Lemma DRW_pixel_inv Vx Vy y p x s s' :
  DRW_pixel Vx Vy y p x s = Ok s' -> inv s -> inv s'.
Proof.
  unfold DRW_pixel. destruct (_ =? 0); [now intros [= <-]|].
  intros H Hinv. apply bind_Ok_inv in H as (c & _ & H).
  apply bind_Ok_inv in H as (d & Hd & [= <-]).
  apply wr_length in Hd. revert Hd Hinv.
  destruct (c =? 0); intros Hd Hinv; inv_fields.
Qed.

Lemma DRW_inv i s s' : DRW i s = Ok s' -> inv s -> inv s'.
Proof.
  unfold DRW. intros H Hinv.
  eapply (for_loop_inv (DRW_row (reg s (VX i)) (reg s (VY i)))); [| exact H |].
  - intros y t t' Ht Hinvt. unfold DRW_row in Ht.
    apply bind_Ok_inv in Ht as (p & _ & Ht).
    eapply for_loop_inv; [| exact Ht | exact Hinvt].
    intros x u u'. apply DRW_pixel_inv.
  - inv_fields.
Qed.

Lemma LDK_from_inv n : forall j i s s',
  LDK_from n j i s = Ok s' -> inv s -> inv s'.
Proof.
  induction n as [|n IH]; simpl; intros j i s s' H Hinv.
  - injection H as <-. inv_fields.
  - apply bind_Ok_inv in H as (k & _ & H).
    destruct (k =? 0); [eauto|]. injection H as <-. inv_fields.
Qed.

Lemma BCD_inv i s s' : BCD i s = Ok s' -> inv s -> inv s'.
Proof.
  unfold BCD. intros H Hinv.
  apply bind_Ok_inv in H as (m1 & H1 & H).
  apply bind_Ok_inv in H as (m2 & H2 & H).
  apply bind_Ok_inv in H as (m3 & H3 & [= <-]).
  apply wr_length in H1, H2, H3.
  inv_fields.
Qed.

Lemma STA_inv i s s' : STA i s = Ok s' -> inv s -> inv s'.
Proof.
  unfold STA. apply for_loop_inv. intros j t t' Ht Hinv.
  unfold STA_body in Ht. apply bind_Ok_inv in Ht as (m & Hm & [= <-]).
  apply wr_length in Hm. inv_fields.
Qed.

Lemma LDA_inv i s s' : LDA i s = Ok s' -> inv s -> inv s'.
Proof.
  unfold LDA. apply for_loop_inv. intros j t t' Ht Hinv.
  unfold LDA_body in Ht. apply bind_Ok_inv in Ht as (b & _ & [= <-]).
  inv_fields.
Qed.

Lemma CALL_inv a i s s' : CALL a i s = Ok s' -> inv s -> inv s'.
Proof.
  unfold CALL. intros H Hinv. apply bind_Ok_inv in H as (s1 & Hp & [= <-]).
  apply push_Ok_inv in Hp as (_ & _ & _ & HR & _ & _ & Hv & Hk & Hscr & _).
  pose proof (ADDR_range i).
  unfold inv, wf in *; simpl. rewrite HR, Hv, Hk, Hscr. inv_fields.
Qed.

Lemma RET_inv a s s' : RET a s = Ok s' -> inv s -> inv s'.
Proof.
  unfold RET, pop. destruct (sp s =? STACK_LOW); [discriminate|].
  intros H Hinv. apply bind_Ok_inv in H as ([x t] & Hx & [= <-]).
  apply bind_Ok_inv in Hx as (y & _ & [= _ <-]).
  inv_fields.
Qed.

Lemma execute_inv a r i s s' : execute a r i s = Ok s' -> inv s -> inv s'.
Proof.
  intros H Hinv. revert s' H.
  pose proof (ADDR_range i).
  apply execute_cases; try (unfold unknown; discriminate).
  - unfold CLS. inv_straight.
  - intros s' Hr. exact (RET_inv _ _ _ Hr Hinv).
  - unfold JP. inv_straight.
  - intros s' Hr. exact (CALL_inv _ _ _ _ Hr Hinv).
  - unfold SE. inv_straight.
  - unfold SNEI. inv_straight.
  - unfold SR. inv_straight.
  - unfold LDB. inv_straight.
  - unfold ADDI. inv_straight.
  - unfold LDR. inv_straight.
  - unfold OR. inv_straight.
  - unfold AND. inv_straight.
  - unfold XOR. inv_straight.
  - unfold ADD. inv_straight.
  - unfold SUB. inv_straight.
  - unfold SHR. inv_straight.
  - unfold SUBN. inv_straight.
  - unfold SHL. inv_straight.
  - unfold SNE. inv_straight.
  - unfold LDI. inv_straight.
  - unfold JPR. inv_straight.
  - unfold RND. inv_straight.
  - intros s' Hd. apply bind_Ok_inv in Hd as (t & Ht & [= <-]).
    apply DRW_inv in Ht; [|assumption]. inv_fields.
  - unfold SKP. intros s' Hk. apply bind_Ok_inv in Hk as (k & _ & Hk).
    revert s' Hk. inv_straight.
  - unfold SKNP. intros s' Hk. apply bind_Ok_inv in Hk as (k & _ & Hk).
    revert s' Hk. inv_straight.
  - unfold LDD. inv_straight.
  - unfold LDK. intros s' Hk. now apply LDK_from_inv in Hk.
  - unfold STD. inv_straight.
  - unfold STS. inv_straight.
  - unfold IINC. inv_straight.
  - unfold LDF. inv_straight.
  - intros s' Hr. exact (BCD_inv _ _ _ Hr Hinv).
  - intros s' Hr. exact (STA_inv _ _ _ Hr Hinv).
  - intros s' Hr. exact (LDA_inv _ _ _ Hr Hinv).
Qed.

(** ** The program counter over a run *)

Lemma cycle_inv a h s s' : cycle a h s = Ok s' -> inv s -> inv s'.
Proof.
  unfold cycle, _set_keys. destruct (escape h); [discriminate|]. simpl.
  intros H Hinv. apply bind_Ok_inv in H as ([i s2] & Hf & H).
  apply bind_Ok_inv in H as (s3 & H3 & [= <-]).
  unfold fetch in Hf. apply bind_Ok_inv in Hf as (hi & _ & Hf).
  apply bind_Ok_inv in Hf as (lo & _ & [= _ <-]).
  apply execute_inv in H3.
  - destruct (clear_draw_fields s3) as (ER & EP & _ & Ev & Ek & _ & Escr).
    unfold inv, wf in *. rewrite ER, EP, Ev, Ek, Escr. exact H3.
  - pose proof (length_host_keys h). inv_fields.
Qed.

(** A turn that returns has fetched both bytes of its instruction from
    [RAM]. *)
Lemma cycle_Ok_PC a h s s' : wf s -> cycle a h s = Ok s' -> 0 <= PC s <= 4094.
Proof.
  unfold cycle, _set_keys. destruct (escape h); [discriminate|]. simpl.
  intros (HR & _) H. apply bind_Ok_inv in H as ([i s2] & Hf & _).
  unfold fetch in Hf. apply bind_Ok_inv in Hf as (hi & Hhi & Hf).
  apply bind_Ok_inv in Hf as (lo & Hlo & _). simpl in *.
  apply rd_Ok_inv in Hhi as (? & _). apply rd_Ok_inv in Hlo as (? & _).
  unfold SIZE_MEM in HR. lia.
Qed.

Lemma initialize_inv a : inv (initialize a).
Proof. repeat split; simpl; lia. Qed.

Lemma load_source_inv rom s0 s : load_source rom s0 = Ok s -> inv s0 -> inv s.
Proof.
  unfold load_source. destruct (take _ rom) as [|b bytes]; [discriminate|].
  intros [= <-].
  unfold inv, wf, set_RAM. cbn [RAM PC v keys screen].
  now rewrite ?length_insert, ?length_inserts.
Qed.

Lemma _decrement_timers_inv s : inv s -> inv (_decrement_timers s).
Proof.
  unfold _decrement_timers.
  destruct (delay_timer s >? 0); simpl;
    match goal with |- context [if ?b then _ else _] => destruct b end;
    inv_fields.
Qed.

Lemma reachable_inv a s : reachable a s -> inv s.
Proof.
  induction 1 as [rom s H | h s s' _ IH H | s _ IH].
  - exact (load_source_inv _ _ _ H (initialize_inv a)).
  - exact (cycle_inv _ _ _ _ H IH).
  - exact (_decrement_timers_inv _ IH).
Qed.

(** C9, as the claim states it: the program counter of a running machine
    is even and between [0x200] and 4094.  After [JP 0x001] it is 1. *)
Lemma PC_can_be_odd_and_low :
  ~ (forall a s, reachable a s ->
       Z.even (PC s) = true /\ 0x200 <= PC s <= 4094).
Proof.
  intros H.
  pose (s0 := booted [0x10; 0x01]).
  pose (s1 := match cycle sample_RAM_addr idle s0 with Ok t => t | _ => s0 end).
  assert (R : reachable sample_RAM_addr s1).
  { apply (reach_cycle _ idle s0); [|vm_compute; reflexivity].
    apply (reach_load _ [0x10; 0x01]). vm_compute. reflexivity. }
  destruct (H _ _ R) as (Heven & _). vm_compute in Heven. discriminate Heven.
Qed.

(** C9, amended.  In every state the machine reaches the program counter
    is a 16-bit value, and it lies within [0, 4094] in every state from
    which a further turn is carried out: [fetch] reads [RAM[PC]] and
    [RAM[PC + 1]].  Nothing keeps it even or at [0x200] or above. *)
Theorem reachable_PC_range a s :
  reachable a s ->
  0 <= PC s < 65536 /\
  (forall h s', cycle a h s = Ok s' -> 0 <= PC s <= 4094).
Proof.
  intros R. destruct (reachable_inv _ _ R) as (Hwf & HPC).
  split; [exact HPC|].
  intros h s'. now apply cycle_Ok_PC.
Qed.

Lemma reachable_PC_range_witness :
  exists s1,
    cycle sample_RAM_addr idle (booted [0x12; 0x02; 0x00; 0xE0]) = Ok s1 /\
    0 <= PC s1 < 65536 /\ 0 <= PC (booted [0x12; 0x02; 0x00; 0xE0]) <= 4094.
Proof.
  pose (s0 := booted [0x12; 0x02; 0x00; 0xE0]).
  pose (s1 := match cycle sample_RAM_addr idle s0 with Ok t => t | _ => s0 end).
  assert (E : cycle sample_RAM_addr idle s0 = Ok s1) by (vm_compute; reflexivity).
  assert (R0 : reachable sample_RAM_addr s0).
  { apply (reach_load _ [0x12; 0x02; 0x00; 0xE0]). vm_compute. reflexivity. }
  assert (R1 : reachable sample_RAM_addr s1).
  { exact (reach_cycle _ idle s0 s1 R0 E). }
  exists s1. split; [exact E|]. split.
  - exact (proj1 (reachable_PC_range _ _ R1)).
  - exact (proj2 (reachable_PC_range _ _ R0) idle s1 E).
Defined.

(** ** DRW: where the pixels go *)

Lemma existsb_seqZ_snoc (f : Z -> bool) n :
  0 <= n -> existsb f (seqZ 0 (n + 1)) = existsb f (seqZ 0 n) || f n.
Proof.
  intros Hn. rewrite seqZ_app by lia. rewrite existsb_app.
  rewrite (seqZ_cons _ 1), (seqZ_nil _ (Z.pred 1)) by lia. simpl.
  now rewrite orb_false_r.
Qed.

Lemma existsb_seqZ_false (f : Z -> bool) n :
  (forall j, 0 <= j < n -> f j = false) -> existsb f (seqZ 0 n) = false.
Proof.
  intros Hf. destruct (existsb f (seqZ 0 n)) eqn:E; [|reflexivity].
  apply existsb_exists in E as (j & Hin & Hj).
  apply list_elem_of_In, elem_of_seqZ in Hin. rewrite Hf in Hj by lia.
  discriminate.
Qed.

Lemma lxor_1_byte c : 0 <= c < 256 -> u8 (Z.lxor c 1) = Z.lxor c 1.
Proof.
  intros Hc.
  assert (H : forallb (fun c => u8 (Z.lxor c 1) =? Z.lxor c 1) (seqZ 0 256) = true)
    by (vm_compute; reflexivity).
  rewrite forallb_forall in H. apply Z.eqb_eq, H.
  apply list_elem_of_In, elem_of_seqZ. lia.
Qed.

Lemma drawn_ext s0 (P Q : Z -> bool) t :
  (forall k, P k = Q k) -> drawn s0 P t -> drawn s0 Q t.
Proof.
  intros HPQ (HR & HI & Hlen & Hscr). repeat split; auto.
  intros k c Hk Hc Hb. rewrite <- HPQ. now apply Hscr.
Qed.

(** One pass through the body of the inner loop. *)
Lemma DRW_pixel_step s0 Vx Vy y p x (P : Z -> bool) t :
  0 <= linear_index Vx Vy x y < Z.of_nat (length (screen s0)) ->
  (sprite_bit p x = true -> P (linear_index Vx Vy x y) = false) ->
  drawn s0 P t ->
  exists t', DRW_pixel Vx Vy y p x t = Ok t' /\
    drawn s0 (fun k => P k || (sprite_bit p x && (k =? linear_index Vx Vy x y))) t'.
Proof.
  intros Hidx Hfresh (HR & HI & Hlen & Hscr).
  unfold DRW_pixel, sprite_bit in *. fold (linear_index Vx Vy x y).
  destruct (Z.land p (Z.shiftr 128 x) =? 0); simpl in *.
  - exists t. split; [reflexivity|]. repeat split; auto.
    intros k c Hk Hc Hb. rewrite orb_false_r. now apply Hscr.
  - specialize (Hfresh eq_refl).
    destruct (rd_in_range (screen t) (linear_index Vx Vy x y)) as (ct & Hct);
      [lia|].
    rewrite Hct. simpl.
    assert (Hlen1 : length (screen (if ct =? 0 then t else set_reg 15 1 t))
                    = length (screen t)) by (destruct (ct =? 0); reflexivity).
    rewrite wr_in_range by (rewrite Hlen1; lia). simpl.
    eexists. split; [reflexivity|].
    assert (Hs1 : forall u, u = (if ct =? 0 then t else set_reg 15 1 t) ->
              RAM u = RAM t /\ I u = I t /\ screen u = screen t)
      by (intros u ->; destruct (ct =? 0); repeat split).
    destruct (Hs1 _ eq_refl) as (ER & EI & Escr).
    repeat split; simpl.
    + congruence.
    + congruence.
    + rewrite length_insert. congruence.
    + intros k c Hk Hc Hb. rewrite Escr.
      destruct (Z.eqb_spec k (linear_index Vx Vy x y)) as [->|Hne].
      * rewrite orb_true_r.
        apply rd_Ok_inv in Hct as (_ & Hct).
        rewrite (Hscr _ _ Hk Hc Hb), Hfresh in Hct. injection Hct as <-.
        rewrite list_lookup_insert_eq by lia.
        now rewrite lxor_1_byte.
      * rewrite orb_false_r. rewrite list_lookup_insert_ne by lia.
        now apply Hscr.
Qed.

Lemma linear_index_inj Vx Vy x y x' y' :
  0 <= x < 8 -> 0 <= x' < 8 ->
  linear_index Vx Vy x y = linear_index Vx Vy x' y' -> x = x' /\ y = y'.
Proof. unfold linear_index, WIDTH. lia. Qed.

(** One pass through the body of the outer loop. *)
Lemma DRW_row_step s0 Vx Vy y t :
  0 <= I s0 + y < Z.of_nat (length (RAM s0)) -> 0 <= y ->
  (forall x, 0 <= x < 8 ->
     0 <= linear_index Vx Vy x y < Z.of_nat (length (screen s0))) ->
  drawn s0 (rows_hit s0 Vx Vy y) t ->
  exists t', DRW_row Vx Vy y t = Ok t' /\ drawn s0 (rows_hit s0 Vx Vy (y + 1)) t'.
Proof.
  intros Hrow Hy Hidx Hd. unfold DRW_row.
  destruct Hd as (HR & HI & Hd').
  destruct (rd_in_range (RAM s0) (I s0 + y)) as (p & Hp); [lia|].
  rewrite HR, HI, Hp. simpl.
  assert (Hrowp : sprite_row s0 y = p).
  { unfold sprite_row. apply rd_Ok_inv in Hp as (_ & ->). reflexivity. }
  destruct (for_loop_total
    (fun x u => drawn s0 (fun k => rows_hit s0 Vx Vy y k || row_hits p Vx Vy y x k) u)
    (DRW_pixel Vx Vy y p) 8 0 t) as (t' & Ht' & Hfin).
  - intros x u Hx Hu.
    destruct (DRW_pixel_step s0 Vx Vy y p x
                (fun k => rows_hit s0 Vx Vy y k || row_hits p Vx Vy y x k) u)
      as (u' & Hu' & Hd1); [apply Hidx; lia | | exact Hu |].
    + intros _. apply orb_false_iff. split.
      * apply existsb_seqZ_false. intros y' Hy'.
        apply existsb_seqZ_false. intros x' Hx'.
        destruct (Z.eqb_spec (linear_index Vx Vy x y) (linear_index Vx Vy x' y'))
          as [E|_]; [|apply andb_false_r].
        apply linear_index_inj in E; lia.
      * apply existsb_seqZ_false. intros x' Hx'.
        destruct (Z.eqb_spec (linear_index Vx Vy x y) (linear_index Vx Vy x' y))
          as [E|_]; [|apply andb_false_r].
        apply linear_index_inj in E; lia.
    + exists u'. split; [exact Hu'|].
      eapply drawn_ext; [|exact Hd1].
      intros k. cbv beta. unfold row_hits at 2.
      rewrite existsb_seqZ_snoc by lia. now rewrite orb_assoc.
  - apply (drawn_ext s0 (rows_hit s0 Vx Vy y)); [|repeat split; tauto].
    intros k. unfold row_hits. rewrite seqZ_nil by lia. simpl.
    now rewrite orb_false_r.
  - exists t'. split; [exact Ht'|].
    eapply drawn_ext; [|exact Hfin].
    intros k. cbv beta. unfold rows_hit at 2.
    rewrite existsb_seqZ_snoc by lia. now rewrite Hrowp.
Qed.

(** [DRW] returns when the sprite lies inside [RAM] and the box it covers,
    counted in linear indices, ends inside [screen]. *)
Lemma DRW_in_range i s :
  wf s -> 0 <= I s -> I s + LSN i <= SIZE_MEM ->
  0 <= reg s (VX i) -> 0 <= reg s (VY i) ->
  (LSN i = 0 \/
   linear_index (reg s (VX i)) (reg s (VY i)) 7 (LSN i - 1) < WIDTH * HEIGHT) ->
  exists s', DRW i s = Ok s' /\ drawn s (sprite_hits i s) s'.
Proof.
  intros (HR & _ & _ & Hscr) HI Hmem HVx HVy Hbox.
  pose proof (LSN_range i) as Hn. unfold DRW, sprite_hits.
  set (Vx := reg s (VX i)) in *. set (Vy := reg s (VY i)) in *.
  destruct (for_loop_total (fun y t => drawn s (rows_hit s Vx Vy y) t)
              (DRW_row Vx Vy) (Z.to_nat (LSN i)) 0 (set_reg 0xF 0 s))
    as (s' & Hs' & Hfin).
  - intros y t Hy Ht. apply DRW_row_step; try assumption; try lia.
    intros x Hx. rewrite Hscr.
    destruct Hbox as [Hz | Hbox]; [lia|].
    unfold linear_index, WIDTH, HEIGHT in *. lia.
  - repeat split. intros k c _ Hc _. exact Hc.
  - exists s'. split; [exact Hs'|].
    now replace (0 + Z.of_nat (Z.to_nat (LSN i))) with (LSN i) in Hfin by lia.
Qed.

(** C1, as the claim states it: every set pixel of the sprite toggles the
    cell at the wrapped coordinates.  With [V0 = 62], [V1 = 0] and the
    sprite row [0xF0], column 2 belongs at the start of line 0; the cell
    there is left as it was (the cell toggled is the first of line 1). *)
Lemma DRW_does_not_wrap :
  ~ (forall i s s' x y c,
       wf s -> DRW i s = Ok s' ->
       0 <= x < 8 -> 0 <= y < LSN i ->
       sprite_bit (sprite_row s y) x = true ->
       screen s !! Z.to_nat (wrapped_index (reg s (VX i)) (reg s (VY i)) x y) = Some c ->
       screen s' !! Z.to_nat (wrapped_index (reg s (VX i)) (reg s (VY i)) x y)
         = Some (Z.lxor c 1)).
Proof.
  intros H.
  pose (s0 := set_reg 0 62 (initialize sample_RAM_addr)).
  pose (s1 := match DRW 0xD011 s0 with Ok t => t | _ => s0 end).
  assert (E : DRW 0xD011 s0 = Ok s1) by (vm_compute; reflexivity).
  assert (Hwf : wf s0) by (repeat split).
  specialize (H 0xD011 s0 s1 2 0 0 Hwf E).
  specialize (H ltac:(lia) ltac:(vm_compute; split; [discriminate | reflexivity])).
  specialize (H eq_refl eq_refl).
  vm_compute in H. discriminate H.
Qed.

(** Nor does it clip: with [V1 = 32] the first row of the sprite has
    linear indices from 2048 on, past the end of [screen]. *)
Example DRW_below_the_grid :
  DRW 0xD011 (set_reg 1 32 (initialize sample_RAM_addr)) = Undefined.
Proof. vm_compute. reflexivity. Qed.

(** C1, amended.  [DRW] applies no wraparound: each set pixel (row [y],
    column [x]) toggles the cell of linear index [(VX + x) + (VY + y) * 64],
    and no other cell changes.  [DRW] returns whenever the sprite lies
    inside [RAM] and those indices stay inside [screen]; for a sprite that
    lies wholly inside the 64x32 grid they are the wrapped coordinates. *)
Theorem DRW_blits_at_linear_index i s :
  wf s -> 0 <= I s -> I s + LSN i <= SIZE_MEM ->
  0 <= reg s (VX i) -> 0 <= reg s (VY i) ->
  (LSN i = 0 \/
   linear_index (reg s (VX i)) (reg s (VY i)) 7 (LSN i - 1) < WIDTH * HEIGHT) ->
  (exists s', DRW i s = Ok s' /\
     forall k c, 0 <= k -> screen s !! Z.to_nat k = Some c -> 0 <= c < 256 ->
       screen s' !! Z.to_nat k =
         Some (if sprite_hits i s k then Z.lxor c 1 else c)) /\
  (reg s (VX i) + 7 < WIDTH -> reg s (VY i) + LSN i <= HEIGHT ->
   forall x y, 0 <= x < 8 -> 0 <= y < LSN i ->
     linear_index (reg s (VX i)) (reg s (VY i)) x y =
     wrapped_index (reg s (VX i)) (reg s (VY i)) x y).
Proof.
  intros Hwf HI Hmem HVx HVy Hbox. split.
  - destruct (DRW_in_range i s) as (s' & Hs' & _ & _ & _ & Hd); auto.
    exists s'. split; [exact Hs' | exact Hd].
  - intros Hw Hh x y Hx Hy. unfold linear_index, wrapped_index, WIDTH, HEIGHT in *.
    rewrite !Z.mod_small by lia. lia.
Qed.

Lemma DRW_blits_at_linear_index_witness :
  exists s',
    DRW 0xD011 (set_reg 0 62 (initialize sample_RAM_addr)) = Ok s' /\
    screen s' !! 63%nat = Some 1 /\ screen s' !! 64%nat = Some 1 /\
    screen s' !! 0%nat = Some 0.
Proof.
  pose (s0 := set_reg 0 62 (initialize sample_RAM_addr)).
  destruct (DRW_blits_at_linear_index 0xD011 s0) as ((s' & Hs' & Hpix) & _);
    [repeat split | vm_compute; discriminate | vm_compute; discriminate
    | vm_compute; discriminate | vm_compute; discriminate
    | right; vm_compute; reflexivity |].
  exists s'. split; [exact Hs'|].
  split; [|split].
  - exact (Hpix 63 0 ltac:(lia) eq_refl ltac:(lia)).
  - exact (Hpix 64 0 ltac:(lia) eq_refl ltac:(lia)).
  - exact (Hpix 0 0 ltac:(lia) eq_refl ltac:(lia)).
Defined.

(** ** Memory accesses of the instructions *)

Lemma bind_no_exit {A B : Type} (m : outcome A) (k : A -> outcome B) :
  (forall f, m <> Exit f) -> (forall x f, k x <> Exit f) ->
  forall f, (x ← m; k x) <> Exit f.
Proof.
  intros Hm Hk f. destruct m as [x| g |]; simpl.
  - apply Hk.
  - now destruct (Hm g).
  - discriminate.
Qed.

Lemma for_loop_no_exit body :
  (forall j s f, body j s <> Exit f) ->
  forall n j s f, for_loop n j body s <> Exit f.
Proof.
  intros Hbody. induction n as [|n IH]; simpl; intros j s f; [discriminate|].
  apply bind_no_exit; [apply Hbody | intros; apply IH].
Qed.

Lemma for_loop_Ok_each (P : state -> Prop) body :
  (forall j s s', body j s = Ok s' -> P s -> P s') ->
  forall n from s s', for_loop n from body s = Ok s' -> P s ->
  forall j, from <= j < from + Z.of_nat n ->
  exists t t', P t /\ body j t = Ok t'.
Proof.
  intros Hbody. induction n as [|n IH]; simpl; intros from s s' H HP j Hj; [lia|].
  apply bind_Ok_inv in H as (s1 & H1 & H).
  destruct (Z.eq_dec j from) as [->|Hne]; [eauto|].
  apply (IH (from + 1) s1 s' H); [eauto | lia].
Qed.

Lemma outcome_Undefined {A : Type} (m : outcome A) :
  (forall x, m <> Ok x) -> (forall f, m <> Exit f) -> m = Undefined.
Proof.
  intros HOk HExit. destruct m as [x | f |]; [now destruct (HOk x) | now destruct (HExit f) | reflexivity].
Qed.

Lemma BCD_no_exit i s f : BCD i s <> Exit f.
Proof.
  unfold BCD. revert f.
  repeat (apply bind_no_exit; [intros; apply wr_no_exit | intros ?]).
  discriminate.
Qed.

Lemma STA_no_exit i s f : STA i s <> Exit f.
Proof.
  unfold STA. apply for_loop_no_exit. intros j t. unfold STA_body.
  apply bind_no_exit; [intros; apply wr_no_exit | discriminate].
Qed.

Lemma LDA_no_exit i s f : LDA i s <> Exit f.
Proof.
  unfold LDA. apply for_loop_no_exit. intros j t. unfold LDA_body.
  apply bind_no_exit; [intros; apply rd_no_exit | discriminate].
Qed.

Lemma DRW_no_exit i s f : DRW i s <> Exit f.
Proof.
  unfold DRW. apply for_loop_no_exit. intros y t. unfold DRW_row.
  apply bind_no_exit; [intros; apply rd_no_exit|]. intros p.
  apply for_loop_no_exit. intros x u. unfold DRW_pixel.
  destruct (_ =? 0); [discriminate|].
  apply bind_no_exit; [intros; apply rd_no_exit|]. intros c.
  apply bind_no_exit; [intros; apply wr_no_exit | discriminate].
Qed.

Lemma BCD_in_range i s :
  wf s -> 0 <= I s -> I s + 2 < SIZE_MEM -> exists s', BCD i s = Ok s'.
Proof.
  intros (HR & _) HI Hlim. unfold BCD.
  rewrite wr_in_range by lia. simpl.
  rewrite wr_in_range by (rewrite length_insert; lia). simpl.
  rewrite wr_in_range by (rewrite !length_insert; lia). simpl. eauto.
Qed.

Lemma BCD_Ok_range i s s' :
  BCD i s = Ok s' -> I s + 2 < Z.of_nat (length (RAM s)).
Proof.
  unfold BCD. intros H.
  apply bind_Ok_inv in H as (m1 & H1 & H).
  apply bind_Ok_inv in H as (m2 & H2 & H).
  apply bind_Ok_inv in H as (m3 & H3 & _).
  apply wr_length in H1, H2. apply wr_Ok_inv in H3 as (H3 & _). lia.
Qed.

Lemma STA_Ok_range i s s' :
  STA i s = Ok s' -> I s + VX i < Z.of_nat (length (RAM s)).
Proof.
  unfold STA. intros H. pose proof (VX_range i).
  assert (Hkeep : forall j t t', STA_body j t = Ok t' ->
            I t = I s /\ length (RAM t) = length (RAM s) ->
            I t' = I s /\ length (RAM t') = length (RAM s)).
  { intros j t t' Ht (HI & HR).
    apply STA_body_frame in Ht as (-> & -> & _). auto. }
  destruct (for_loop_Ok_each _ _ Hkeep _ _ _ _ H (conj eq_refl eq_refl) (VX i))
    as (t & t' & (HI & HR) & Ht); [lia|].
  unfold STA_body in Ht. apply bind_Ok_inv in Ht as (m & Hm & _).
  apply wr_Ok_inv in Hm as (Hm & _). lia.
Qed.

Lemma LDA_Ok_range i s s' :
  LDA i s = Ok s' -> I s + VX i < Z.of_nat (length (RAM s)).
Proof.
  unfold LDA. intros H. pose proof (VX_range i).
  assert (Hkeep : forall j t t', LDA_body j t = Ok t' ->
            I t = I s /\ RAM t = RAM s -> I t' = I s /\ RAM t' = RAM s).
  { intros j t t' Ht (HI & HR).
    apply LDA_body_frame in Ht as (-> & -> & _). auto. }
  destruct (for_loop_Ok_each _ _ Hkeep _ _ _ _ H (conj eq_refl eq_refl) (VX i))
    as (t & t' & (HI & HR) & Ht); [lia|].
  unfold LDA_body in Ht. apply bind_Ok_inv in Ht as (b & Hb & _).
  apply rd_Ok_inv in Hb as (Hb & _). rewrite HR, HI in Hb. lia.
Qed.

Lemma DRW_pixel_frame Vx Vy y p x s s' :
  DRW_pixel Vx Vy y p x s = Ok s' -> I s' = I s /\ RAM s' = RAM s.
Proof.
  unfold DRW_pixel. destruct (_ =? 0); [now intros [= <-]|].
  intros H. apply bind_Ok_inv in H as (c & _ & H).
  apply bind_Ok_inv in H as (d & _ & [= <-]).
  destruct (c =? 0); split; reflexivity.
Qed.

Lemma DRW_row_frame Vx Vy y s s' :
  DRW_row Vx Vy y s = Ok s' -> I s' = I s /\ RAM s' = RAM s.
Proof.
  unfold DRW_row. intros H. apply bind_Ok_inv in H as (p & _ & H).
  eapply (for_loop_preserves (fun t => I t = I s /\ RAM t = RAM s));
    [| exact H | split; reflexivity].
  intros x t t' Ht (HI & HR).
  apply DRW_pixel_frame in Ht as (-> & ->). auto.
Qed.

Lemma DRW_Ok_range i s s' :
  DRW i s = Ok s' -> 1 <= LSN i ->
  I s + LSN i - 1 < Z.of_nat (length (RAM s)).
Proof.
  unfold DRW. intros H Hn.
  assert (Hkeep : forall y t t',
            DRW_row (reg s (VX i)) (reg s (VY i)) y t = Ok t' ->
            I t = I s /\ RAM t = RAM s -> I t' = I s /\ RAM t' = RAM s).
  { intros y t t' Ht (HI & HR).
    apply DRW_row_frame in Ht as (-> & ->). auto. }
  destruct (for_loop_Ok_each _ _ Hkeep _ _ _ _ H (conj eq_refl eq_refl) (LSN i - 1))
    as (t & t' & (HI & HR) & Ht); [lia|].
  unfold DRW_row in Ht. apply bind_Ok_inv in Ht as (p & Hp & _).
  apply rd_Ok_inv in Hp as (Hp & _). rewrite HR, HI in Hp. lia.
Qed.

(** C3, as the claim states it: an access above address 4095 makes the
    instruction fail with an error.  [BCD] with [I = 0xFFE] has no exit to
    take: its third store is to [RAM[4096]]. *)
Lemma BCD_has_no_bounds_error :
  ~ (forall i s, wf s -> 0 <= I s -> SIZE_MEM <= I s + 2 ->
       exists f, BCD i s = Exit f).
Proof.
  intros H.
  destruct (H 0xF033 (set_I 0xFFE (initialize sample_RAM_addr))) as (f & Hf).
  - repeat split.
  - vm_compute. discriminate.
  - vm_compute. discriminate.
  - exact (BCD_no_exit _ _ _ Hf).
Qed.

(** C3, amended.  The instructions use the addresses [I + k] as they are,
    neither wrapped nor validated, and none of them has an error exit.  An
    access that stays within 0..4095 is carried out; one that reaches
    beyond 4095 indexes [RAM] outside its bounds, which C leaves
    undefined. *)
Theorem memory_access_is_unchecked i s :
  wf s -> 0 <= I s ->
  (forall f, BCD i s <> Exit f /\ STA i s <> Exit f /\
             LDA i s <> Exit f /\ DRW i s <> Exit f) /\
  (I s + 2 < SIZE_MEM -> exists s', BCD i s = Ok s') /\
  (SIZE_MEM <= I s + 2 -> BCD i s = Undefined) /\
  (I s + VX i < SIZE_MEM ->
     (exists s', STA i s = Ok s') /\ (exists s', LDA i s = Ok s')) /\
  (SIZE_MEM <= I s + VX i -> STA i s = Undefined /\ LDA i s = Undefined) /\
  (I s + LSN i <= SIZE_MEM ->
     0 <= reg s (VX i) -> 0 <= reg s (VY i) ->
     LSN i = 0 \/
     linear_index (reg s (VX i)) (reg s (VY i)) 7 (LSN i - 1) < WIDTH * HEIGHT ->
     exists s', DRW i s = Ok s') /\
  (1 <= LSN i -> SIZE_MEM <= I s + LSN i - 1 -> DRW i s = Undefined).
Proof.
  intros Hwf HI. pose proof Hwf as (HR & _).
  split; [|split; [|split; [|split; [|split; [|split]]]]].
  - intros f. split; [apply BCD_no_exit|].
    split; [apply STA_no_exit|]. split; [apply LDA_no_exit | apply DRW_no_exit].
  - now apply BCD_in_range.
  - intros Hout. apply outcome_Undefined; [|apply BCD_no_exit].
    intros s' Hs'. apply BCD_Ok_range in Hs'. lia.
  - intros Hin. split; [now apply STA_in_range | now apply LDA_in_range].
  - intros Hout. split; (apply outcome_Undefined;
      [|first [apply STA_no_exit | apply LDA_no_exit]]); intros s' Hs'.
    + apply STA_Ok_range in Hs'. lia.
    + apply LDA_Ok_range in Hs'. lia.
  - intros Hin HVx HVy Hbox.
    destruct (DRW_in_range i s) as (s' & Hs' & _); eauto.
  - intros Hn Hout. apply outcome_Undefined; [|apply DRW_no_exit].
    intros s' Hs'. apply DRW_Ok_range in Hs'; lia.
Qed.

Lemma memory_access_is_unchecked_witness :
  (exists s', BCD 0xF033 (set_I 0xFFD (initialize sample_RAM_addr)) = Ok s') /\
  BCD 0xF033 (set_I 0xFFE (initialize sample_RAM_addr)) = Undefined /\
  STA 0xF355 (set_I 0xFFD (initialize sample_RAM_addr)) = Undefined /\
  LDA 0xF365 (set_I 0xFFD (initialize sample_RAM_addr)) = Undefined /\
  DRW 0xD012 (set_I 0xFFF (initialize sample_RAM_addr)) = Undefined.
Proof.
  assert (Hwf : forall a, wf (set_I a (initialize sample_RAM_addr)))
    by (intros a; repeat split).
  assert (HI : forall a, 0 <= a -> 0 <= I (set_I a (initialize sample_RAM_addr)))
    by (intros a Ha; exact Ha).
  destruct (memory_access_is_unchecked 0xF033 _ (Hwf 0xFFD) (HI 0xFFD ltac:(lia)))
    as (_ & Hbcd & _).
  destruct (memory_access_is_unchecked 0xF033 _ (Hwf 0xFFE) (HI 0xFFE ltac:(lia)))
    as (_ & _ & Hbcd' & _).
  destruct (memory_access_is_unchecked 0xF355 _ (Hwf 0xFFD) (HI 0xFFD ltac:(lia)))
    as (_ & _ & _ & _ & Hsta & _).
  destruct (memory_access_is_unchecked 0xF365 _ (Hwf 0xFFD) (HI 0xFFD ltac:(lia)))
    as (_ & _ & _ & _ & Hlda & _).
  destruct (memory_access_is_unchecked 0xD012 _ (Hwf 0xFFF) (HI 0xFFF ltac:(lia)))
    as (_ & _ & _ & _ & _ & _ & Hdrw).
  split; [apply Hbcd; reflexivity|].
  split; [apply Hbcd'; vm_compute; discriminate|].
  split; [apply Hsta; vm_compute; discriminate|].
  split; [apply Hlda; vm_compute; discriminate|].
  apply Hdrw; vm_compute; discriminate.
Defined.

(** ** Arithmetic instructions away from VF *)

Lemma ADD_distinct_from_VF_witness :
  exists s',
    ADD 0x8014 (set_reg 1 0x01 (set_reg 0 0xFF (initialize sample_RAM_addr))) = Ok s' /\
    reg s' 0 = 0 /\ reg s' 0xF = 1.
Proof.
  destruct (ADD_distinct_from_VF 0x8014
              (set_reg 1 0x01 (set_reg 0 0xFF (initialize sample_RAM_addr))))
    as (s' & H & HX & HF); [repeat split | discriminate | discriminate |].
  exists s'. split; [exact H|]. split; [exact HX | exact HF].
Defined.

(** [SUB] and [SUBN] on registers other than [VF]: the difference modulo
    256, and [VF] = 1 exactly when nothing is borrowed, equality
    included. *)
Theorem SUB_SUBN_distinct_from_VF i s :
  wf s -> VX i <> 0xF -> VY i <> 0xF ->
  (exists s', SUB i s = Ok s' /\
     reg s' (VX i) = (reg s (VX i) - reg s (VY i)) mod 256 /\
     reg s' 0xF = if reg s (VY i) <=? reg s (VX i) then 1 else 0) /\
  (exists s', SUBN i s = Ok s' /\
     reg s' (VX i) = (reg s (VY i) - reg s (VX i)) mod 256 /\
     reg s' 0xF = if reg s (VX i) <=? reg s (VY i) then 1 else 0).
Proof.
  intros (_ & Hv & _) HX HY. pose proof (VX_range i). pose proof (VY_range i).
  unfold NUM_REGS in Hv.
  split; (eexists; split; [reflexivity|]; split;
    [ rewrite reg_set_reg_eq by (unfold set_reg; simpl; rewrite length_insert; lia);
      rewrite !reg_set_reg_ne by lia; reflexivity
    | rewrite reg_set_reg_ne by lia; rewrite reg_set_reg_eq by lia ]).
  - destruct (Z.gtb_spec (reg s (VY i)) (reg s (VX i)));
      destruct (Z.leb_spec (reg s (VY i)) (reg s (VX i))); try lia; reflexivity.
  - destruct (Z.gtb_spec (reg s (VX i)) (reg s (VY i)));
      destruct (Z.leb_spec (reg s (VX i)) (reg s (VY i))); try lia; reflexivity.
Qed.

Lemma SUB_SUBN_distinct_from_VF_witness :
  (exists s',
     SUB 0x8015 (set_reg 1 7 (set_reg 0 7 (initialize sample_RAM_addr))) = Ok s' /\
     reg s' 0 = 0 /\ reg s' 0xF = 1) /\
  (exists s',
     SUBN 0x8017 (set_reg 1 3 (set_reg 0 5 (initialize sample_RAM_addr))) = Ok s' /\
     reg s' 0 = 254 /\ reg s' 0xF = 0).
Proof.
  split.
  - destruct (SUB_SUBN_distinct_from_VF 0x8015
                (set_reg 1 7 (set_reg 0 7 (initialize sample_RAM_addr))))
      as ((s' & H & HX & HF) & _); [repeat split | discriminate | discriminate |].
    exists s'. split; [exact H|]. split; [exact HX | exact HF].
  - destruct (SUB_SUBN_distinct_from_VF 0x8017
                (set_reg 1 3 (set_reg 0 5 (initialize sample_RAM_addr))))
      as (_ & (s' & H & HX & HF)); [repeat split | discriminate | discriminate |].
    exists s'. split; [exact H|]. split; [exact HX | exact HF].
Defined.

(** [SHR] and [SHL] on a register other than [VF] that holds a byte: the
    register is halved, or doubled modulo 256, and [VF] receives the bit
    shifted out. *)
Theorem SHR_SHL_distinct_from_VF i s :
  wf s -> VX i <> 0xF -> 0 <= reg s (VX i) < 256 ->
  (exists s', SHR i s = Ok s' /\
     reg s' (VX i) = reg s (VX i) / 2 /\ reg s' 0xF = reg s (VX i) mod 2) /\
  (exists s', SHL i s = Ok s' /\
     reg s' (VX i) = (2 * reg s (VX i)) mod 256 /\
     reg s' 0xF = reg s (VX i) / 128).
Proof.
  intros (_ & Hv & _) HX Hb. pose proof (VX_range i).
  unfold NUM_REGS in Hv.
  split; (eexists; split; [reflexivity|]; split;
    [ rewrite reg_set_reg_eq by (unfold set_reg; simpl; rewrite length_insert; lia);
      rewrite !reg_set_reg_ne by lia
    | rewrite reg_set_reg_ne by lia; rewrite reg_set_reg_eq by lia ]).
  - rewrite Z.shiftr_div_pow2 by lia. change (2 ^ 1) with 2.
    apply u8_small. pose proof (Z.div_pos (reg s (VX i)) 2).
    assert (reg s (VX i) / 2 <= reg s (VX i)) by (apply Z.div_le_upper_bound; lia).
    lia.
  - unfold LSBI. change 1 with (Z.ones 1) at 1. rewrite Z.land_ones by lia.
    change (2 ^ 1) with 2. apply u8_small.
    pose proof (Z.mod_pos_bound (reg s (VX i)) 2). lia.
  - rewrite Z.shiftl_mul_pow2 by lia. change (2 ^ 1) with 2.
    unfold u8. f_equal. lia.
  - unfold MSBR. rewrite Z.shiftr_div_pow2 by lia. change (2 ^ 7) with 128.
    apply u8_small. pose proof (Z.div_pos (reg s (VX i)) 128).
    assert (reg s (VX i) / 128 < 2) by (apply Z.div_lt_upper_bound; lia).
    lia.
Qed.

Lemma SHR_SHL_distinct_from_VF_witness :
  (exists s',
     SHR 0x8006 (set_reg 0 3 (initialize sample_RAM_addr)) = Ok s' /\
     reg s' 0 = 1 /\ reg s' 0xF = 1) /\
  (exists s',
     SHL 0x800E (set_reg 0 0x81 (initialize sample_RAM_addr)) = Ok s' /\
     reg s' 0 = 2 /\ reg s' 0xF = 1).
Proof.
  split.
  - destruct (SHR_SHL_distinct_from_VF 0x8006
                (set_reg 0 3 (initialize sample_RAM_addr)))
      as ((s' & H & HX & HF) & _);
      [repeat split | discriminate | vm_compute; split; [discriminate | reflexivity] |].
    exists s'. split; [exact H|]. split; [exact HX | exact HF].
  - destruct (SHR_SHL_distinct_from_VF 0x800E
                (set_reg 0 0x81 (initialize sample_RAM_addr)))
      as (_ & (s' & H & HX & HF));
      [repeat split | discriminate | vm_compute; split; [discriminate | reflexivity] |].
    exists s'. split; [exact H|]. split; [exact HX | exact HF].
Defined.

(** [IINC] with a register other than [VF]: [I] grows by [VX] as a 16-bit
    value, not reduced to 12 bits, and [VF] = 1 exactly when the sum has
    left the 4 KB address space. *)
Theorem IINC_distinct_from_VF i s :
  wf s -> VX i <> 0xF ->
  exists s', IINC i s = Ok s' /\
    I s' = (I s + reg s (VX i)) mod 65536 /\
    reg s' 0xF = (if 0xFFF <? I s + reg s (VX i) then 1 else 0) /\
    reg s' (VX i) = reg s (VX i).
Proof.
  intros (_ & Hv & _) HX. pose proof (VX_range i). unfold NUM_REGS in Hv.
  eexists. split; [reflexivity|]. simpl. split; [|split].
  - fold (reg (set_reg 15 (if I s + reg s (VX i) >? 4095 then 1 else 0) s) (VX i)).
    now rewrite reg_set_reg_ne by lia.
  - change (reg (set_reg 15 (if I s + reg s (VX i) >? 4095 then 1 else 0) s) 15
            = (if 4095 <? I s + reg s (VX i) then 1 else 0)).
    rewrite reg_set_reg_eq by lia.
    destruct (Z.gtb_spec (I s + reg s (VX i)) 4095);
      destruct (Z.ltb_spec 4095 (I s + reg s (VX i))); try lia; reflexivity.
  - change (reg (set_reg 15 (if I s + reg s (VX i) >? 4095 then 1 else 0) s) (VX i)
            = reg s (VX i)).
    now rewrite reg_set_reg_ne by lia.
Qed.

Lemma IINC_distinct_from_VF_witness :
  exists s',
    IINC 0xF01E (set_I 0xFFF (set_reg 0 2 (initialize sample_RAM_addr))) = Ok s' /\
    I s' = 0x1001 /\ reg s' 0xF = 1.
Proof.
  destruct (IINC_distinct_from_VF 0xF01E
              (set_I 0xFFF (set_reg 0 2 (initialize sample_RAM_addr))))
    as (s' & H & HI & HF & _); [repeat split | discriminate |].
  exists s'. split; [exact H|]. split; [exact HI | exact HF].
Defined.

(** ** RND *)

Lemma u8_land_BYTE x i : u8 (Z.land x (BYTE i)) = Z.land x (BYTE i).
Proof.
  unfold BYTE, u8. rewrite Z.land_assoc.
  change 255 with (Z.ones 8). rewrite Z.land_ones by lia.
  change (2 ^ 8) with 256. apply Z.mod_mod. lia.
Qed.

(** Whatever [rand()] returns, [RND] leaves in [VX] a byte with no bit set
    outside the mask [kk], and changes no other register. *)
Theorem RND_within_mask r i s :
  wf s ->
  exists s', RND r i s = Ok s' /\
    0 <= reg s' (VX i) < 256 /\
    Z.land (reg s' (VX i)) (BYTE i) = reg s' (VX i) /\
    (forall y, 0 <= y -> y <> VX i -> reg s' y = reg s y).
Proof.
  intros (_ & Hv & _). pose proof (VX_range i). unfold NUM_REGS in Hv.
  eexists. split; [reflexivity|].
  rewrite reg_set_reg_eq by lia. rewrite u8_land_BYTE.
  split; [|split].
  - rewrite <- u8_land_BYTE. apply Z.mod_pos_bound. lia.
  - rewrite <- Z.land_assoc. now rewrite Z.land_diag.
  - intros y Hy Hne. now rewrite reg_set_reg_ne by lia.
Qed.

Lemma RND_within_mask_witness :
  exists s',
    RND 0x1234ABCD 0xC10F (initialize sample_RAM_addr) = Ok s' /\
    reg s' 1 = 0x0D.
Proof.
  destruct (RND_within_mask 0x1234ABCD 0xC10F (initialize sample_RAM_addr))
    as (s' & H & _); [repeat split|].
  exists s'. split; [exact H|].
  injection H as <-. reflexivity.
Defined.

(** ** The fields of an instruction word *)

(** The word [fetch] assembles from two bytes has the first byte as its
    high half, and the macros take it apart: the nibbles of the two bytes,
    the second byte, and the low twelve bits. *)
Theorem INSTR_fields hi lo :
  0 <= hi < 256 -> 0 <= lo < 256 ->
  INSTR hi lo = 256 * hi + lo /\ u16 (INSTR hi lo) = INSTR hi lo /\
  MSN (INSTR hi lo) = hi / 16 /\ VX (INSTR hi lo) = hi mod 16 /\
  VY (INSTR hi lo) = lo / 16 /\ LSN (INSTR hi lo) = lo mod 16 /\
  BYTE (INSTR hi lo) = lo /\ ADDR (INSTR hi lo) = 256 * (hi mod 16) + lo.
Proof.
  intros Hhi Hlo.
  pose (ok := fun hi lo =>
    (INSTR hi lo =? 256 * hi + lo) && (u16 (INSTR hi lo) =? INSTR hi lo) &&
    (MSN (INSTR hi lo) =? hi / 16) && (VX (INSTR hi lo) =? hi mod 16) &&
    (VY (INSTR hi lo) =? lo / 16) && (LSN (INSTR hi lo) =? lo mod 16) &&
    (BYTE (INSTR hi lo) =? lo) && (ADDR (INSTR hi lo) =? 256 * (hi mod 16) + lo)).
  assert (Hall : forallb (fun h => forallb (ok h) (seqZ 0 256)) (seqZ 0 256) = true)
    by (vm_compute; reflexivity).
  rewrite forallb_forall in Hall.
  specialize (Hall hi ltac:(apply list_elem_of_In, elem_of_seqZ; lia)).
  rewrite forallb_forall in Hall.
  specialize (Hall lo ltac:(apply list_elem_of_In, elem_of_seqZ; lia)).
  unfold ok in Hall. rewrite !andb_true_iff, !Z.eqb_eq in Hall. tauto.
Qed.

Lemma INSTR_fields_witness :
  INSTR 0xD1 0x25 = 0xD125 /\ MSN 0xD125 = 0xD /\ VX 0xD125 = 1 /\
  VY 0xD125 = 2 /\ LSN 0xD125 = 5 /\ BYTE 0xD125 = 0x25 /\ ADDR 0xD125 = 0x125.
Proof.
  destruct (INSTR_fields 0xD1 0x25) as (E & _ & HM & HX & HY & HL & HB & HA);
    [lia | lia |].
  change (INSTR 0xD1 0x25) with 0xD125 in *.
  repeat split; assumption.
Defined.

(** ** The timers *)

Lemma _decrement_timers_step s :
  0 <= delay_timer s < 256 -> 0 <= sound_timer s < 256 ->
  delay_timer (_decrement_timers s) = Z.max 0 (delay_timer s - 1) /\
  sound_timer (_decrement_timers s) = Z.max 0 (sound_timer s - 1) /\
  RAM (_decrement_timers s) = RAM s /\ PC (_decrement_timers s) = PC s /\
  v (_decrement_timers s) = v s /\ I (_decrement_timers s) = I s /\
  screen (_decrement_timers s) = screen s.
Proof.
  intros Hd Hs. unfold _decrement_timers.
  destruct (Z.gtb_spec (delay_timer s) 0); simpl;
    destruct (Z.gtb_spec (sound_timer s) 0); simpl;
    rewrite ?u8_small by lia; repeat split; lia.
Qed.

(** [n] timer ticks take each timer down by [n] and stop at 0: neither
    timer wraps below zero, and the ticks touch nothing but the timers. *)
Theorem ticks_count_down n s :
  0 <= delay_timer s < 256 -> 0 <= sound_timer s < 256 ->
  delay_timer (ticks n s) = Z.max 0 (delay_timer s - Z.of_nat n) /\
  sound_timer (ticks n s) = Z.max 0 (sound_timer s - Z.of_nat n) /\
  RAM (ticks n s) = RAM s /\ PC (ticks n s) = PC s /\ v (ticks n s) = v s /\
  I (ticks n s) = I s /\ screen (ticks n s) = screen s.
Proof.
  intros Hd Hs. induction n as [|n (IHd & IHs & IHR & IHP & IHv & IHI & IHscr)].
  - simpl. repeat split; lia.
  - change (ticks (S n) s) with (_decrement_timers (ticks n s)).
    destruct (_decrement_timers_step (ticks n s))
      as (Ed & Es & ER & EP & Ev & EI & Escr); [lia | lia |].
    rewrite Ed, Es, ER, EP, Ev, EI, Escr, IHd, IHs.
    repeat split; try assumption; lia.
Qed.

Lemma ticks_count_down_witness :
  delay_timer (ticks 5 (set_sound_timer 1 (set_delay_timer 3
                 (initialize sample_RAM_addr)))) = 0 /\
  sound_timer (ticks 1 (set_sound_timer 1 (set_delay_timer 3
                 (initialize sample_RAM_addr)))) = 0 /\
  delay_timer (ticks 1 (set_sound_timer 1 (set_delay_timer 3
                 (initialize sample_RAM_addr)))) = 2.
Proof.
  destruct (ticks_count_down 5 (set_sound_timer 1 (set_delay_timer 3
              (initialize sample_RAM_addr)))) as (H5 & _);
    [simpl; lia | simpl; lia |].
  destruct (ticks_count_down 1 (set_sound_timer 1 (set_delay_timer 3
              (initialize sample_RAM_addr)))) as (H1d & H1s & _);
    [simpl; lia | simpl; lia |].
  split; [exact H5|]. split; [exact H1s | exact H1d].
Defined.

(** ** SKP and SKNP *)

Lemma execute_SKP a r i s :
  MSN i = 0xE -> BYTE i = 0x9E -> execute a r i s = SKP i s.
Proof. intros HM HB. unfold execute. rewrite HM, HB. reflexivity. Qed.

Lemma execute_SKNP a r i s :
  MSN i = 0xE -> BYTE i = 0xA1 -> execute a r i s = SKNP i s.
Proof. intros HM HB. unfold execute. rewrite HM, HB. reflexivity. Qed.

(** A turn on [Ex9E] or [ExA1] with [VX] below 16 returns, and the key it
    tests is the one the host reports in that same turn, whatever [keys]
    held before: [Ex9E] skips the next instruction exactly when key [VX]
    is down, [ExA1] exactly when it is up.  With [VX] from 16 on, the turn
    indexes [keys] outside its bounds. *)
Theorem cycle_key_tests a h s i :
  wf s -> escape h = false -> word_at s (PC s) = Ok i -> MSN i = 0xE ->
  0 <= reg s (VX i) ->
  (reg s (VX i) < NUM_KEYS ->
     (BYTE i = 0x9E -> exists s', cycle a h s = Ok s' /\
        keys s' = host_keys h /\
        PC s' = if u8 (pressed h (reg s (VX i))) =? 0
                then PC s + 2 else PC s + 4) /\
     (BYTE i = 0xA1 -> exists s', cycle a h s = Ok s' /\
        keys s' = host_keys h /\
        PC s' = if u8 (pressed h (reg s (VX i))) =? 0
                then PC s + 4 else PC s + 2)) /\
  (NUM_KEYS <= reg s (VX i) -> BYTE i = 0x9E \/ BYTE i = 0xA1 ->
     cycle a h s = Undefined).
Proof.
  intros Hwf He Hw HM H0.
  pose proof (word_at_Ok_range _ _ _ Hwf Hw) as HPC.
  rewrite (cycle_unfold a h s i He Hw).
  set (s0 := skip (set_keys (host_keys h) s)).
  assert (HP0 : PC s0 = PC s + 2) by (unfold s0; simpl; apply u16_small; lia).
  assert (HP1 : PC (skip s0) = PC s + 4).
  { change (PC (skip s0)) with (u16 (PC s0 + 2)). rewrite HP0, u16_small; lia. }
  split.
  - intros Hlt.
    assert (Ek : rd (keys s0) (reg s0 (VX i))
                 = Ok (u8 (pressed h (reg s (VX i)))))
      by (apply rd_host_keys; lia).
    split; intros HB.
    + rewrite (execute_SKP a (rnd h) i s0 HM HB). unfold SKP. rewrite Ek.
      eexists. split; [reflexivity|].
      match goal with
      | |- context [clear_draw ?t] =>
          destruct (clear_draw_fields t) as (_ & -> & _ & _ & -> & _)
      end.
      destruct (_ =? 0); auto.
    + rewrite (execute_SKNP a (rnd h) i s0 HM HB). unfold SKNP. rewrite Ek.
      eexists. split; [reflexivity|].
      match goal with
      | |- context [clear_draw ?t] =>
          destruct (clear_draw_fields t) as (_ & -> & _ & _ & -> & _)
      end.
      destruct (_ =? 0); auto.
  - intros Hge HB.
    assert (Ek : rd (keys s0) (reg s0 (VX i)) = Undefined).
    { change (rd (host_keys h) (reg s (VX i)) = Undefined). unfold rd.
      destruct (Z.leb_spec 0 (reg s (VX i))); [|reflexivity].
      rewrite lookup_ge_None_2; [reflexivity|].
      pose proof (length_host_keys h). lia. }
    destruct HB as [HB | HB].
    + rewrite (execute_SKP a (rnd h) i s0 HM HB). unfold SKP. rewrite Ek.
      reflexivity.
    + rewrite (execute_SKNP a (rnd h) i s0 HM HB). unfold SKNP. rewrite Ek.
      reflexivity.
Qed.

Lemma cycle_key_tests_witness :
  (exists s1,
     cycle sample_RAM_addr (holding 3)
       (set_reg 0 3 (booted [0xE0; 0x9E])) = Ok s1 /\ PC s1 = 0x204) /\
  (exists s2,
     cycle sample_RAM_addr idle
       (set_reg 0 3 (booted [0xE0; 0x9E])) = Ok s2 /\ PC s2 = 0x202) /\
  cycle sample_RAM_addr idle (set_reg 0 16 (booted [0xE0; 0x9E])) = Undefined.
Proof.
  split; [|split].
  - destruct (cycle_key_tests sample_RAM_addr (holding 3)
                (set_reg 0 3 (booted [0xE0; 0x9E])) 0xE09E)
      as (Hin & _);
      [repeat split | reflexivity | reflexivity | reflexivity
      | vm_compute; discriminate |].
    destruct Hin as (H9E & _); [reflexivity|].
    destruct (H9E eq_refl) as (s1 & E1 & _ & P1).
    exists s1. split; [exact E1 | exact P1].
  - destruct (cycle_key_tests sample_RAM_addr idle
                (set_reg 0 3 (booted [0xE0; 0x9E])) 0xE09E)
      as (Hin & _);
      [repeat split | reflexivity | reflexivity | reflexivity
      | vm_compute; discriminate |].
    destruct Hin as (H9E & _); [reflexivity|].
    destruct (H9E eq_refl) as (s2 & E2 & _ & P2).
    exists s2. split; [exact E2 | exact P2].
  - destruct (cycle_key_tests sample_RAM_addr idle
                (set_reg 0 16 (booted [0xE0; 0x9E])) 0xE09E)
      as (_ & Hout);
      [repeat split | reflexivity | reflexivity | reflexivity
      | vm_compute; discriminate |].
    apply Hout; [vm_compute; discriminate | left; reflexivity].
Defined.

(** ** load_source *)

(** [load_source] copies the first [0xCA0] bytes of the ROM, at most, to
    [RAM] from address [0x200] on and leaves everything else as it was:
    the font below [0x200], the memory past the copy, the stack area from
    [0xEA0] on in particular, and the registers. *)
Theorem load_source_layout rom s :
  wf s -> rom <> [] ->
  exists s', load_source rom s = Ok s' /\
    (forall k b, (k < Z.to_nat 0xCA0)%nat -> rom !! k = Some b ->
       RAM s' !! (Z.to_nat 0x200 + k)%nat = Some (u8 b)) /\
    (forall j, (j < Z.to_nat 0x200)%nat \/
               (Z.to_nat 0x200 + Nat.min (Z.to_nat 0xCA0) (length rom) <= j)%nat ->
       RAM s' !! j = RAM s !! j) /\
    (forall j, (Z.to_nat STACK_UP <= j)%nat -> RAM s' !! j = RAM s !! j) /\
    PC s' = PC s /\ sp s' = sp s /\ v s' = v s /\ I s' = I s /\
    screen s' = screen s.
Proof.
  intros (HR & _) Hne. unfold load_source.
  assert (Hlen : length (map u8 (take (Z.to_nat 0xCA0) rom))
                 = Nat.min (Z.to_nat 0xCA0) (length rom))
    by now rewrite length_map, length_take.
  assert (Hs : exists s', s' = set_RAM (list_inserts (Z.to_nat 0x200)
                 (map u8 (take (Z.to_nat 0xCA0) rom)) (RAM s)) s /\
               (match take (Z.to_nat 0xCA0) rom with
                | [] => Exit Error_reading_ROM
                | b :: bytes =>
                    Ok (set_RAM (list_inserts (Z.to_nat 0x200)
                          (map u8 (b :: bytes)) (RAM s)) s)
                end) = Ok s').
  { eexists. split; [reflexivity|].
    destruct rom as [|b rom]; [contradiction|]. reflexivity. }
  destruct Hs as (s' & -> & ->). eexists. split; [reflexivity|].
  unfold SIZE_MEM in HR. cbn [RAM PC sp v I screen set_RAM].
  split; [|split; [|split]]; [| | | repeat split].
  - intros k b Hk Hb.
    rewrite list_lookup_inserts by (rewrite ?Hlen; apply lookup_lt_Some in Hb; lia).
    replace (Z.to_nat 512 + k - Z.to_nat 512)%nat with k by lia.
    rewrite list_lookup_fmap, lookup_take_lt by lia. now rewrite Hb.
  - intros j [Hj | Hj].
    + now apply list_lookup_inserts_lt.
    + apply list_lookup_inserts_ge. rewrite Hlen. lia.
  - intros j Hj. apply list_lookup_inserts_ge. rewrite Hlen.
    unfold STACK_UP in Hj. lia.
Qed.

Lemma load_source_layout_witness :
  exists s',
    load_source [0x12; 0x345] (initialize sample_RAM_addr) = Ok s' /\
    RAM s' !! 513%nat = Some 0x45 /\ RAM s' !! 0%nat = Some 0xF0 /\
    RAM s' !! 514%nat = Some 0.
Proof.
  destruct (load_source_layout [0x12; 0x345] (initialize sample_RAM_addr))
    as (s' & H & Hrom & Hrest & _); [repeat split | discriminate |].
  exists s'. split; [exact H|]. split; [|split].
  - exact (Hrom 1%nat 0x345 ltac:(vm_compute; lia) eq_refl).
  - rewrite (Hrest 0%nat); [reflexivity | left; vm_compute; lia].
  - rewrite (Hrest 514%nat); [reflexivity | right; vm_compute; lia].
Defined.

(** ** push and pop *)

(** What [push] has stored, the next [pop] returns, with the stack pointer
    back where it was, unless the emptiness test of [pop] stops it. *)
Theorem pop_after_push a x s s1 :
  push a x s = Ok s1 -> sp s1 <> STACK_LOW ->
  pop a s1 = Ok (u16 x, set_sp (sp s) s1).
Proof.
  intros Hp Hne. apply push_Ok_inv in Hp as (_ & Hsp & Hl & _).
  unfold pop. destruct (Z.eqb_spec (sp s1) STACK_LOW); [contradiction|].
  replace (sp s1 + 2) with (sp s) by lia. simpl.
  rewrite (load16_RAM a _ _ s1) by reflexivity. now rewrite Hl.
Qed.

Lemma pop_after_push_witness :
  exists s1 s2,
    push sample_RAM_addr 0x2F6 (initialize sample_RAM_addr) = Ok s1 /\
    pop sample_RAM_addr s1 = Ok (0x2F6, s2) /\
    sp s2 = sp (initialize sample_RAM_addr).
Proof.
  pose (s0 := initialize sample_RAM_addr).
  pose (s1 := match push sample_RAM_addr 0x2F6 s0 with Ok t => t | _ => s0 end).
  assert (E : push sample_RAM_addr 0x2F6 s0 = Ok s1) by (vm_compute; reflexivity).
  exists s1, (set_sp (sp s0) s1). split; [exact E|].
  split; [|reflexivity].
  exact (pop_after_push sample_RAM_addr 0x2F6 s0 s1 E
           ltac:(vm_compute; discriminate)).
Defined.

(** ** The decoder, with the conditions of each case *)

Lemma execute_cases_dec a r i s (P : outcome state -> Prop) :
  (i = 0x00E0 -> P (CLS s)) -> (i = 0x00EE -> P (RET a s)) ->
  (MSN i = 0x1 -> P (JP i s)) -> (MSN i = 0x2 -> P (CALL a i s)) ->
  (MSN i = 0x3 -> P (SE i s)) -> (MSN i = 0x4 -> P (SNEI i s)) ->
  (MSN i = 0x5 -> P (SR i s)) -> (MSN i = 0x6 -> P (LDB i s)) ->
  (MSN i = 0x7 -> P (ADDI i s)) ->
  (MSN i = 0x8 -> P (LDR i s)) -> (MSN i = 0x8 -> P (OR i s)) ->
  (MSN i = 0x8 -> P (AND i s)) -> (MSN i = 0x8 -> P (XOR i s)) ->
  (MSN i = 0x8 -> P (ADD i s)) -> (MSN i = 0x8 -> P (SUB i s)) ->
  (MSN i = 0x8 -> P (SHR i s)) -> (MSN i = 0x8 -> P (SUBN i s)) ->
  (MSN i = 0x8 -> P (SHL i s)) ->
  (MSN i = 0x9 -> P (SNE i s)) -> (MSN i = 0xA -> P (LDI i s)) ->
  (MSN i = 0xB -> P (JPR i s)) -> (MSN i = 0xC -> P (RND r i s)) ->
  (MSN i = 0xD -> P (s' ← DRW i s; Ok (set_draw 1 s'))) ->
  (MSN i = 0xE -> P (SKP i s)) -> (MSN i = 0xE -> P (SKNP i s)) ->
  (MSN i = 0xF -> P (LDD i s)) -> (MSN i = 0xF -> P (LDK i s)) ->
  (MSN i = 0xF -> P (STD i s)) -> (MSN i = 0xF -> P (STS i s)) ->
  (MSN i = 0xF -> P (IINC i s)) -> (MSN i = 0xF -> P (LDF i s)) ->
  (MSN i = 0xF -> BYTE i = 0x33 -> P (BCD i s)) ->
  (MSN i = 0xF -> BYTE i = 0x55 -> P (STA i s)) ->
  (MSN i = 0xF -> P (LDA i s)) ->
  P (unknown i s) ->
  P (execute a r i s).
Proof.
  intros. unfold execute. cbv zeta.
  destruct (MSN i) eqn:EM;
  repeat match goal with
         | |- P (match ?x with _ => _ end) => is_var x; destruct x
         | |- P (match LSN i with _ => _ end) => destruct (LSN i)
         | |- P (match BYTE i with _ => _ end) => destruct (BYTE i) eqn:EB
         | |- P (if ?x =? ?y then _ else _) => destruct (Z.eqb_spec x y)
         end; auto.
Qed.

(** ** Instructions that touch neither memory nor framebuffer nor stack *)

Lemma untouched_refl s : untouched s s.
Proof. repeat split. Qed.

Lemma untouched_trans s t u : untouched s t -> untouched t u -> untouched s u.
Proof. intros (? & ? & ?) (? & ? & ?). repeat split; congruence. Qed.

Lemma quiet_bind {A : Type} s (m : outcome A) (k : A -> outcome state) :
  (forall f, m <> Exit f) -> (forall x, quiet s (k x)) -> quiet s (x ← m; k x).
Proof.
  intros Hm Hk. split.
  - apply bind_no_exit; [exact Hm | intros x; apply Hk].
  - intros s' H. apply bind_Ok_inv in H as (x & _ & H). now apply (Hk x).
Qed.

Lemma quiet_for_loop body :
  (forall j t, quiet t (body j t)) ->
  forall n j s, quiet s (for_loop n j body s).
Proof.
  intros Hbody n j s. split.
  - apply for_loop_no_exit. intros k t. apply Hbody.
  - intros s' H.
    eapply (for_loop_preserves (fun t => untouched s t)); [| exact H | apply untouched_refl].
    intros k t t' Ht Hst. eapply untouched_trans; [exact Hst|].
    now apply (Hbody k t).
Qed.

Ltac quiet_straight :=
  cbv zeta; split;
  [ intros ?; repeat match goal with
                     | |- context [if ?b then _ else _] => destruct b
                     end; discriminate
  | let s' := fresh "s'" in
    intros s' [= <-];
    repeat match goal with
           | |- context [if ?b then _ else _] => destruct b
           end; repeat split ].

Lemma quiet_LDK_from n : forall j i s, quiet s (LDK_from n j i s).
Proof.
  induction n as [|n IH]; intros j i s; simpl.
  - quiet_straight.
  - apply quiet_bind; [intros; apply rd_no_exit|]. intros k.
    destruct (k =? 0); [apply IH | quiet_straight].
Qed.

Lemma quiet_LDA i s : quiet s (LDA i s).
Proof.
  unfold LDA. apply quiet_for_loop. intros j t. unfold LDA_body.
  apply quiet_bind; [intros; apply rd_no_exit|]. intros b. quiet_straight.
Qed.

Lemma quiet_SKP i s : quiet s (SKP i s) /\ quiet s (SKNP i s).
Proof.
  unfold SKP, SKNP.
  split; (apply quiet_bind; [intros; apply rd_no_exit|]; intros k; quiet_straight).
Qed.

Lemma quiet_straight_line r i s :
  quiet s (JP i s) /\ quiet s (SE i s) /\ quiet s (SNEI i s) /\
  quiet s (SR i s) /\ quiet s (LDB i s) /\ quiet s (ADDI i s) /\
  quiet s (LDR i s) /\ quiet s (OR i s) /\ quiet s (AND i s) /\
  quiet s (XOR i s) /\ quiet s (ADD i s) /\ quiet s (SUB i s) /\
  quiet s (SHR i s) /\ quiet s (SUBN i s) /\ quiet s (SHL i s) /\
  quiet s (SNE i s) /\ quiet s (LDI i s) /\ quiet s (JPR i s) /\
  quiet s (RND r i s) /\ quiet s (LDD i s) /\ quiet s (STD i s) /\
  quiet s (STS i s) /\ quiet s (IINC i s) /\ quiet s (LDF i s).
Proof.
  unfold JP, SE, SNEI, SR, LDB, ADDI, LDR, OR, AND, XOR, ADD, SUB, SHR, SUBN,
    SHL, SNE, LDI, JPR, RND, LDD, STD, STS, IINC, LDF.
  repeat (split; [quiet_straight|]). quiet_straight.
Qed.

(** ** What one instruction can do to memory, framebuffer and stack *)

Lemma DRW_pixel_keeps Vx Vy y p x s s' :
  DRW_pixel Vx Vy y p x s = Ok s' -> RAM s' = RAM s /\ sp s' = sp s.
Proof.
  unfold DRW_pixel. destruct (_ =? 0); [now intros [= <-]|].
  intros H. apply bind_Ok_inv in H as (c & _ & H).
  apply bind_Ok_inv in H as (d & _ & [= <-]).
  destruct (c =? 0); split; reflexivity.
Qed.

Lemma DRW_keeps i s s' : DRW i s = Ok s' -> RAM s' = RAM s /\ sp s' = sp s.
Proof.
  unfold DRW. intros H.
  eapply (for_loop_preserves (fun t => RAM t = RAM s /\ sp t = sp s));
    [| exact H | split; reflexivity].
  intros y t t' Ht (HR & Hsp). unfold DRW_row in Ht.
  apply bind_Ok_inv in Ht as (p & _ & Ht).
  eapply (for_loop_preserves (fun u => RAM u = RAM s /\ sp u = sp s));
    [| exact Ht | split; assumption].
  intros x u u' Hu (HRu & Hspu).
  apply DRW_pixel_keeps in Hu as (-> & ->). auto.
Qed.

Lemma BCD_keeps i s s' : BCD i s = Ok s' -> screen s' = screen s /\ sp s' = sp s.
Proof.
  unfold BCD. intros H.
  apply bind_Ok_inv in H as (m1 & _ & H).
  apply bind_Ok_inv in H as (m2 & _ & H).
  apply bind_Ok_inv in H as (m3 & _ & [= <-]). split; reflexivity.
Qed.

Lemma STA_keeps i s s' : STA i s = Ok s' -> screen s' = screen s /\ sp s' = sp s.
Proof.
  unfold STA. intros H.
  eapply (for_loop_preserves (fun t => screen t = screen s /\ sp t = sp s));
    [| exact H | split; reflexivity].
  intros j t t' Ht (Hscr & Hsp). unfold STA_body in Ht.
  apply bind_Ok_inv in Ht as (m & _ & [= <-]). auto.
Qed.

(** The exits and the effects of [execute], by instruction. *)
Lemma execute_effect a r i s :
  (forall f, execute a r i s = Exit f ->
     (f = Stack_overflow /\ MSN i = 0x2 /\ sp s < STACK_UP) \/
     (f = Empty_stack /\ i = 0x00EE /\ sp s = STACK_LOW) \/
     f = Unknown_instruction (PC s - 2) i) /\
  (forall s', execute a r i s = Ok s' ->
     (RAM s' = RAM s \/ MSN i = 0x2 \/
      (MSN i = 0xF /\ (BYTE i = 0x33 \/ BYTE i = 0x55))) /\
     (screen s' = screen s \/ i = 0x00E0 \/ MSN i = 0xD) /\
     (sp s' = sp s \/ (i = 0x00EE /\ sp s' = sp s + 2) \/
      (MSN i = 0x2 /\ sp s' = sp s - 2 /\ a <= sp s))).
Proof.
  destruct (quiet_straight_line r i s)
    as (? & ? & ? & ? & ? & ? & ? & ? & ? & ? & ? & ? & ? & ? & ? & ? & ? & ?
        & ? & ? & ? & ? & ? & ?).
  destruct (quiet_SKP i s) as (? & ?).
  pose proof (quiet_LDA i s). pose proof (quiet_LDK_from (Z.to_nat NUM_REGS) 0 i s).
  assert (Hq : forall o, quiet s o ->
    (forall f, o = Exit f ->
       (f = Stack_overflow /\ MSN i = 0x2 /\ sp s < STACK_UP) \/
       (f = Empty_stack /\ i = 0x00EE /\ sp s = STACK_LOW) \/
       f = Unknown_instruction (PC s - 2) i) /\
    (forall s', o = Ok s' ->
       (RAM s' = RAM s \/ MSN i = 0x2 \/
        (MSN i = 0xF /\ (BYTE i = 0x33 \/ BYTE i = 0x55))) /\
       (screen s' = screen s \/ i = 0x00E0 \/ MSN i = 0xD) /\
       (sp s' = sp s \/ (i = 0x00EE /\ sp s' = sp s + 2) \/
        (MSN i = 0x2 /\ sp s' = sp s - 2 /\ a <= sp s)))).
  { intros o (Hne & Hok). split.
    - intros f Hf. now destruct (Hne f).
    - intros s' Hs'. destruct (Hok s' Hs') as (? & ? & ?). auto. }
  apply execute_cases_dec; intros; try (apply Hq; assumption).
  - (* CLS *) split; [discriminate|]. intros s' [= <-]. simpl.
    split; [auto|]. split; auto.
  - (* RET *) subst i. unfold RET, pop. split.
    + intros f. destruct (Z.eqb_spec (sp s) STACK_LOW).
      * intros [= <-]. auto.
      * intros Hf. exfalso. revert Hf.
        apply bind_no_exit; [|intros [x t]; discriminate].
        apply bind_no_exit; [|discriminate].
        unfold load16.
        apply bind_no_exit; [intros; apply rd_no_exit|]. intros lo.
        apply bind_no_exit; [intros; apply rd_no_exit | discriminate].
    + intros s'. destruct (sp s =? STACK_LOW); [discriminate|].
      intros H'. apply bind_Ok_inv in H' as ([x t] & Hx & [= <-]).
      apply bind_Ok_inv in Hx as (y & _ & [= _ <-]). simpl.
      split; [auto|]. split; [auto|]. right. left. auto.
  - (* CALL *) unfold CALL, push. split.
    + intros f. destruct (Z.ltb_spec (sp s) STACK_UP).
      * intros [= <-]. auto.
      * intros Hf. exfalso. revert Hf.
        apply bind_no_exit; [|discriminate].
        apply bind_no_exit; [|discriminate]. unfold store16.
        apply bind_no_exit; [intros; apply wr_no_exit|]. intros m1.
        apply bind_no_exit; [intros; apply wr_no_exit | discriminate].
    + intros s'. destruct (sp s <? STACK_UP); [discriminate|].
      intros H'. apply bind_Ok_inv in H' as (t & Ht & [= <-]).
      apply bind_Ok_inv in Ht as (u & Hu & [= <-]).
      apply store16_Ok_inv in Hu as (Hoff & _ & ->). simpl.
      split; [auto|]. split; [auto|]. right. right. repeat split; [assumption | lia].
  - (* DRW *) split.
    + intros f Hf. exfalso. revert Hf.
      apply bind_no_exit; [intros; apply DRW_no_exit | discriminate].
    + intros s' H'. apply bind_Ok_inv in H' as (t & Ht & [= <-]).
      apply DRW_keeps in Ht as (HR & Hsp). simpl.
      split; [auto|]. split; auto.
  - (* BCD *) split.
    + intros f Hf. now destruct (BCD_no_exit i s f).
    + intros s' H'. apply BCD_keeps in H' as (? & ?).
      split; [auto 6|]. split; auto.
  - (* STA *) split.
    + intros f Hf. now destruct (STA_no_exit i s f).
    + intros s' H'. apply STA_keeps in H' as (? & ?).
      split; [auto 6|]. split; auto.
  - (* unknown *) unfold unknown. split; [|discriminate].
    intros f [= <-]. auto.
Qed.

(** ** What one turn can do *)

Lemma word_at_no_exit s p f : word_at s p <> Exit f.
Proof.
  unfold word_at.
  apply bind_no_exit; [intros; apply rd_no_exit|]. intros hi.
  apply bind_no_exit; [intros; apply rd_no_exit | discriminate].
Qed.

(** The three ways a turn can go: the escape key ends the program, the
    fetch reads outside [RAM], or the fetched word is executed. *)
Lemma cycle_shapes a h s :
  (escape h = true /\ cycle a h s = Exit Escape_pressed) \/
  (escape h = false /\ word_at s (PC s) = Undefined /\ cycle a h s = Undefined) \/
  (escape h = false /\ exists i, word_at s (PC s) = Ok i /\
     cycle a h s =
       s3 ← execute a (rnd h) i (skip (set_keys (host_keys h) s));
       Ok (clear_draw s3)).
Proof.
  destruct (escape h) eqn:He.
  - left. unfold cycle, _set_keys. rewrite He. auto.
  - right. destruct (word_at s (PC s)) as [i | f |] eqn:Hw.
    + right. split; [reflexivity|]. exists i. split; [reflexivity|].
      now apply cycle_unfold.
    + now destruct (word_at_no_exit s (PC s) f).
    + left. split; [reflexivity|]. split; [reflexivity|].
      unfold cycle, _set_keys. rewrite He. simpl.
      rewrite fetch_word_at. simpl. unfold word_at in *. simpl. now rewrite Hw.
Qed.

Lemma cycle_Exit_cases a h s f :
  wf s -> cycle a h s = Exit f ->
  (f = Escape_pressed /\ escape h = true) \/
  (exists i, word_at s (PC s) = Ok i /\
     ((f = Stack_overflow /\ MSN i = 0x2 /\ sp s < STACK_UP) \/
      (f = Empty_stack /\ i = 0x00EE /\ sp s = STACK_LOW) \/
      f = Unknown_instruction (PC s) i)).
Proof.
  intros Hwf Hc.
  destruct (cycle_shapes a h s) as [(He & E) | [(_ & _ & E) | (_ & i & Hw & E)]];
    rewrite E in Hc.
  - injection Hc as <-. auto.
  - discriminate.
  - right. exists i. split; [exact Hw|].
    pose proof (word_at_Ok_range _ _ _ Hwf Hw) as HPC.
    destruct (execute a (rnd h) i (skip (set_keys (host_keys h) s)))
      as [s3 | g |] eqn:Ex; simpl in Hc; try discriminate.
    injection Hc as ->.
    apply (proj1 (execute_effect _ _ _ _)) in Ex. simpl in Ex.
    rewrite (u16_small (PC s + 2)) in Ex by lia.
    replace (PC s + 2 - 2) with (PC s) in Ex by lia. exact Ex.
Qed.

(** A turn ends the program in four ways only: on the escape key; with
    "Stack overflow", on a [CALL] whose stack pointer is below the number
    [STACK_UP]; with "Empty stack", on a [RET] whose stack pointer equals
    the number [STACK_LOW]; and with "Unknown instruction", which reports
    the address the word was fetched from and the word itself. *)
Theorem cycle_exits a h s f :
  wf s -> cycle a h s = Exit f ->
  (f = Escape_pressed /\ escape h = true) \/
  (exists i, word_at s (PC s) = Ok i /\
     ((f = Stack_overflow /\ MSN i = 0x2 /\ sp s < STACK_UP) \/
      (f = Empty_stack /\ i = 0x00EE /\ sp s = STACK_LOW) \/
      f = Unknown_instruction (PC s) i)).
Proof. exact (cycle_Exit_cases a h s f). Qed.

Lemma cycle_exits_witness :
  cycle sample_RAM_addr idle (booted [0x51; 0x23]) =
    Exit (Unknown_instruction 0x200 0x5123).
Proof.
  pose (s0 := booted [0x51; 0x23]).
  pose (f := match cycle sample_RAM_addr idle s0 with
             | Exit g => g
             | _ => Escape_pressed
             end).
  assert (E : cycle sample_RAM_addr idle s0 = Exit f) by (vm_compute; reflexivity).
  destruct (cycle_exits sample_RAM_addr idle s0 f ltac:(repeat split) E)
    as [(_ & He) | (i & Hw & Hcases)]; [discriminate He|].
  injection Hw as <-.
  destruct Hcases as [(_ & HM & _) | [(_ & Hi & _) | Hf]];
    [discriminate HM | discriminate Hi |].
  fold s0. rewrite E, Hf. reflexivity.
Defined.

Lemma cycle_effect a h s s' i :
  cycle a h s = Ok s' -> word_at s (PC s) = Ok i ->
  (RAM s' = RAM s \/ MSN i = 0x2 \/
   (MSN i = 0xF /\ (BYTE i = 0x33 \/ BYTE i = 0x55))) /\
  (screen s' = screen s \/ i = 0x00E0 \/ MSN i = 0xD) /\
  (sp s' = sp s \/ (i = 0x00EE /\ sp s' = sp s + 2) \/
   (MSN i = 0x2 /\ sp s' = sp s - 2 /\ a <= sp s)).
Proof.
  intros Hc Hw.
  destruct (cycle_shapes a h s) as [(_ & E) | [(_ & _ & E) | (_ & j & Hj & E)]];
    rewrite E in Hc; try discriminate.
  rewrite Hw in Hj. injection Hj as <-.
  apply bind_Ok_inv in Hc as (s3 & H3 & [= <-]).
  apply (proj2 (execute_effect _ _ _ _)) in H3. simpl in H3.
  destruct (clear_draw_fields s3) as (-> & _ & _ & _ & _ & -> & ->).
  exact H3.
Qed.

(** What a turn that returns leaves alone.  Memory is written only by
    [CALL], [BCD] and [STA]; the framebuffer is changed only by [CLS] and
    [DRW]; the stack pointer moves only on [CALL], down by 2, and on
    [RET], up by 2. *)
Theorem cycle_frames a h s s' i :
  cycle a h s = Ok s' -> word_at s (PC s) = Ok i ->
  (RAM s' = RAM s \/ MSN i = 0x2 \/
   (MSN i = 0xF /\ (BYTE i = 0x33 \/ BYTE i = 0x55))) /\
  (screen s' = screen s \/ i = 0x00E0 \/ MSN i = 0xD) /\
  (sp s' = sp s \/ (i = 0x00EE /\ sp s' = sp s + 2) \/
   (MSN i = 0x2 /\ sp s' = sp s - 2 /\ a <= sp s)).
Proof. exact (cycle_effect a h s s' i). Qed.

Lemma cycle_frames_witness :
  exists s',
    cycle sample_RAM_addr idle (booted [0x60; 0x2A]) = Ok s' /\
    RAM s' = RAM (booted [0x60; 0x2A]) /\
    screen s' = screen (booted [0x60; 0x2A]) /\
    sp s' = sp (booted [0x60; 0x2A]).
Proof.
  pose (s0 := booted [0x60; 0x2A]).
  pose (s1 := match cycle sample_RAM_addr idle s0 with Ok t => t | _ => s0 end).
  assert (E : cycle sample_RAM_addr idle s0 = Ok s1) by (vm_compute; reflexivity).
  destruct (cycle_frames sample_RAM_addr idle s0 s1 0x602A E eq_refl)
    as (HR & Hscr & Hsp).
  exists s1. split; [exact E|].
  split; [|split].
  - destruct HR as [HR | [HM | (HM & _)]]; [exact HR | discriminate HM ..].
  - destruct Hscr as [Hscr | [Hi | HM]]; [exact Hscr | discriminate ..].
  - destruct Hsp as [Hsp | [(Hi & _) | (HM & _)]]; [exact Hsp | discriminate ..].
Defined.

(** ** The stack tests over a run *)

Lemma reachable_sp a s : reachable a s -> a - 2 <= sp s.
Proof.
  induction 1 as [rom s H | h s s' _ IH H | s _ IH].
  - unfold load_source in H. destruct (take _ rom); [discriminate|].
    injection H as <-. simpl. unfold STACK_LOW. lia.
  - destruct (cycle_shapes a h s) as [(_ & E) | [(_ & _ & E) | (_ & i & Hw & E)]];
      rewrite E in H; try discriminate.
    destruct (cycle_effect a h s s' i) as (_ & _ & Hsp); [now rewrite E | exact Hw |].
    destruct Hsp as [-> | [(_ & ->) | (_ & -> & Ha)]]; lia.
  - unfold _decrement_timers.
    destruct (delay_timer s >? 0); simpl;
      match goal with |- context [if ?b then _ else _] => destruct b end;
      simpl; exact IH.
Qed.

(** With [RAM] anywhere above address [0xEC0], as it is for every linked
    program, no state the machine reaches makes a turn print
    "Stack overflow" or "Empty stack": the stack pointer never compares
    below the number [STACK_UP] nor equal to the number [STACK_LOW]. *)
Theorem stack_errors_never_reported a h s :
  STACK_LOW + 2 < a -> reachable a s ->
  cycle a h s <> Exit Stack_overflow /\ cycle a h s <> Exit Empty_stack.
Proof.
  intros Ha R. pose proof (reachable_sp a s R) as Hsp.
  destruct (reachable_inv a s R) as (Hwf & _).
  unfold STACK_LOW in *.
  split; intros Hc; apply cycle_Exit_cases in Hc; try assumption;
    destruct Hc as [(Hf & _) | (i & _ & [(Hf & _ & Hlt) | [(Hf & _ & Heq) | Hf]])];
    try discriminate Hf; unfold STACK_UP, STACK_LOW in *; lia.
Qed.

Lemma stack_errors_never_reported_witness :
  cycle sample_RAM_addr idle (booted [0x00; 0xEE]) <> Exit Empty_stack.
Proof.
  apply (stack_errors_never_reported sample_RAM_addr idle (booted [0x00; 0xEE])).
  - vm_compute. reflexivity.
  - apply (reach_load _ [0x00; 0xEE]). vm_compute. reflexivity.
Defined.

(** ** BCD *)

(** [BCD] of a byte writes its three decimal digits, hundreds first, at
    [I], [I + 1], [I + 2] and changes no other byte of memory, no register
    and not [I]. *)
Theorem BCD_digits i s :
  wf s -> 0 <= I s -> I s + 2 < SIZE_MEM -> 0 <= reg s (VX i) < 256 ->
  exists s' d2 d1 d0,
    BCD i s = Ok s' /\
    RAM s' !! Z.to_nat (I s) = Some d2 /\
    RAM s' !! Z.to_nat (I s + 1) = Some d1 /\
    RAM s' !! Z.to_nat (I s + 2) = Some d0 /\
    0 <= d2 <= 2 /\ 0 <= d1 <= 9 /\ 0 <= d0 <= 9 /\
    100 * d2 + 10 * d1 + d0 = reg s (VX i) /\
    (forall k : nat, (Z.of_nat k < I s \/ I s + 2 < Z.of_nat k) ->
       RAM s' !! k = RAM s !! k) /\
    v s' = v s /\ I s' = I s.
Proof.
  intros (HR & _) HI Hlim Hb. unfold SIZE_MEM in *. unfold BCD.
  rewrite wr_in_range by lia. simpl.
  rewrite wr_in_range by (rewrite length_insert; lia). simpl.
  rewrite wr_in_range by (rewrite !length_insert; lia). simpl.
  set (x := reg s (VX i)) in *.
  rewrite (Z.quot_div_nonneg x 100), (Z.quot_div_nonneg x 10) by lia.
  rewrite (Z.rem_mod_nonneg x 100) by lia.
  rewrite (Z.rem_mod_nonneg (x / 10) 10) by (Z.div_mod_to_equations; lia).
  rewrite (Z.rem_mod_nonneg (x mod 100) 10) by (Z.div_mod_to_equations; lia).
  assert (Hd2 : 0 <= x / 100 <= 2) by (Z.div_mod_to_equations; lia).
  pose proof (Z.mod_pos_bound (x / 10) 10 ltac:(lia)) as Hd1.
  pose proof (Z.mod_pos_bound (x mod 100) 10 ltac:(lia)) as Hd0.
  exists (set_RAM
            (<[Z.to_nat (I s + 2) := u8 ((x mod 100) mod 10)]>
               (<[Z.to_nat (I s + 1) := u8 (x / 10 mod 10)]>
                  (<[Z.to_nat (I s) := u8 (x / 100)]> (RAM s)))) s),
    (x / 100), (x / 10 mod 10), ((x mod 100) mod 10).
  rewrite !u8_small by lia.
  split; [reflexivity|]. simpl.
  split; [|split; [|split]].
  - rewrite !list_lookup_insert_ne by lia.
    apply list_lookup_insert_eq. lia.
  - rewrite list_lookup_insert_ne by lia.
    apply list_lookup_insert_eq. rewrite length_insert. lia.
  - apply list_lookup_insert_eq. rewrite !length_insert. lia.
  - split; [exact Hd2|]. split; [lia|]. split; [lia|].
    split; [Z.div_mod_to_equations; lia|].
    split; [|split; reflexivity].
    intros k Hk. now rewrite !list_lookup_insert_ne by lia.
Qed.

Lemma BCD_digits_witness :
  exists s',
    BCD 0xF033 (set_I 0x300 (set_reg 0 255 (initialize sample_RAM_addr))) = Ok s' /\
    RAM s' !! 768%nat = Some 2 /\ RAM s' !! 769%nat = Some 5 /\
    RAM s' !! 770%nat = Some 5.
Proof.
  destruct (BCD_digits 0xF033
              (set_I 0x300 (set_reg 0 255 (initialize sample_RAM_addr))))
    as (s' & d2 & d1 & d0 & H & _);
    [repeat split | vm_compute; discriminate | reflexivity
    | vm_compute; split; [discriminate | reflexivity] |].
  exists s'. split; [exact H|].
  injection H as <-. repeat split.
Defined.

(** ** STA and LDA: what is moved *)

Lemma STA_effect i s :
  wf s -> 0 <= I s -> I s + VX i < SIZE_MEM ->
  exists s', STA i s = Ok s' /\
    (forall j, 0 <= j <= VX i ->
       RAM s' !! Z.to_nat (I s + j) = Some (u8 (reg s j))) /\
    (forall k : nat, (Z.of_nat k < I s \/ I s + VX i < Z.of_nat k) ->
       RAM s' !! k = RAM s !! k) /\
    v s' = v s /\ I s' = I s.
Proof.
  intros (HR & _) HI Hlim. pose proof (VX_range i) as HX.
  unfold SIZE_MEM in *. unfold STA.
  destruct (for_loop_total
    (fun j t => I t = I s /\ v t = v s /\ length (RAM t) = length (RAM s) /\
       (forall j', 0 <= j' < j ->
          RAM t !! Z.to_nat (I s + j') = Some (u8 (reg s j'))) /\
       (forall k : nat, (Z.of_nat k < I s \/ I s + j <= Z.of_nat k) ->
          RAM t !! k = RAM s !! k))
    STA_body (Z.to_nat (VX i + 1)) 0 s) as (s' & Hs' & HI' & Hv' & _ & Hin & Hout).
  - intros j t Hj (HIt & Hvt & HRt & Hin & Hout). unfold STA_body.
    rewrite wr_in_range by lia. simpl. eexists. split; [reflexivity|]. simpl.
    split; [assumption|]. split; [assumption|].
    split; [rewrite length_insert; assumption|]. split.
    + intros j' Hj'. rewrite HIt. destruct (Z.eq_dec j' j) as [->|Hne].
      * rewrite list_lookup_insert_eq by lia. unfold reg. now rewrite Hvt.
      * rewrite list_lookup_insert_ne by lia. apply Hin. lia.
    + intros k Hk. rewrite list_lookup_insert_ne by lia. apply Hout. lia.
  - repeat split; try reflexivity. intros j' Hj'. lia.
  - exists s'. split; [exact Hs'|].
    split; [intros j Hj; apply Hin; lia|].
    split; [intros k Hk; apply Hout; lia|]. auto.
Qed.

(** [STA] copies [V0..VX] to [RAM[I..I+X]] and changes no other byte of
    memory, no register and not [I]. *)
Theorem STA_stores_registers i s :
  wf s -> 0 <= I s -> I s + VX i < SIZE_MEM ->
  exists s', STA i s = Ok s' /\
    (forall j, 0 <= j <= VX i ->
       RAM s' !! Z.to_nat (I s + j) = Some (u8 (reg s j))) /\
    (forall k : nat, (Z.of_nat k < I s \/ I s + VX i < Z.of_nat k) ->
       RAM s' !! k = RAM s !! k) /\
    v s' = v s /\ I s' = I s.
Proof. exact (STA_effect i s). Qed.

Lemma STA_stores_registers_witness :
  exists s',
    STA 0xF155 (set_I 0x300 (set_reg 1 9 (set_reg 0 7
                  (initialize sample_RAM_addr)))) = Ok s' /\
    RAM s' !! 768%nat = Some 7 /\ RAM s' !! 769%nat = Some 9 /\
    RAM s' !! 770%nat = Some 0.
Proof.
  pose (s0 := set_I 0x300 (set_reg 1 9 (set_reg 0 7 (initialize sample_RAM_addr)))).
  destruct (STA_stores_registers 0xF155 s0) as (s' & H & Hin & Hout & _);
    [repeat split | vm_compute; discriminate | reflexivity |].
  exists s'. split; [exact H|]. split; [|split].
  - exact (Hin 0 ltac:(vm_compute; split; discriminate)).
  - exact (Hin 1 ltac:(vm_compute; split; discriminate)).
  - rewrite (Hout 770%nat); [reflexivity | right; vm_compute; reflexivity].
Defined.

Lemma LDA_effect i s :
  wf s -> 0 <= I s -> I s + VX i < SIZE_MEM ->
  exists s', LDA i s = Ok s' /\
    (forall j b, 0 <= j <= VX i ->
       RAM s !! Z.to_nat (I s + j) = Some b -> reg s' j = u8 b) /\
    (forall j, VX i < j -> reg s' j = reg s j) /\
    length (v s') = length (v s) /\ RAM s' = RAM s /\ I s' = I s.
Proof.
  intros (HR & Hv & _) HI Hlim. pose proof (VX_range i) as HX.
  unfold SIZE_MEM, NUM_REGS in *. unfold LDA.
  destruct (for_loop_total
    (fun j t => I t = I s /\ RAM t = RAM s /\ length (v t) = length (v s) /\
       (forall j' b, 0 <= j' < j ->
          RAM s !! Z.to_nat (I s + j') = Some b -> reg t j' = u8 b) /\
       (forall j', j <= j' -> reg t j' = reg s j'))
    LDA_body (Z.to_nat (VX i + 1)) 0 s) as (s' & Hs' & HI' & HR' & Hl' & Hin & Hout).
  - intros j t Hj (HIt & HRt & Hlt & Hin & Hout). unfold LDA_body.
    destruct (rd_in_range (RAM t) (I t + j)) as (b & Hb); [rewrite HRt; lia|].
    rewrite Hb. simpl. eexists. split; [reflexivity|]. simpl.
    split; [assumption|]. split; [assumption|].
    split; [rewrite length_insert; assumption|].
    apply rd_Ok_inv in Hb as (_ & Hb). rewrite HRt, HIt in Hb. split.
    + intros j' b' Hj' Hb'. destruct (Z.eq_dec j' j) as [->|Hne].
      * rewrite reg_set_reg_eq by lia. congruence.
      * rewrite reg_set_reg_ne by lia. apply Hin; [lia | exact Hb'].
    + intros j' Hj'. rewrite reg_set_reg_ne by lia. apply Hout. lia.
  - repeat split; try reflexivity. intros j' b Hj'. lia.
  - exists s'. split; [exact Hs'|].
    split; [intros j b Hj; apply Hin; lia|].
    split; [intros j Hj; apply Hout; lia|]. auto.
Qed.

(** [LDA] copies [RAM[I..I+X]] to [V0..VX] and changes no other register,
    no byte of memory and not [I]. *)
Theorem LDA_loads_registers i s :
  wf s -> 0 <= I s -> I s + VX i < SIZE_MEM ->
  exists s', LDA i s = Ok s' /\
    (forall j b, 0 <= j <= VX i ->
       RAM s !! Z.to_nat (I s + j) = Some b -> reg s' j = u8 b) /\
    (forall j, VX i < j -> reg s' j = reg s j) /\
    length (v s') = length (v s) /\ RAM s' = RAM s /\ I s' = I s.
Proof. exact (LDA_effect i s). Qed.

Lemma LDA_loads_registers_witness :
  exists s',
    LDA 0xF165 (set_reg 2 9 (initialize sample_RAM_addr)) = Ok s' /\
    reg s' 0 = 0xF0 /\ reg s' 1 = 0x90 /\ reg s' 2 = 9.
Proof.
  pose (s0 := set_reg 2 9 (initialize sample_RAM_addr)).
  destruct (LDA_loads_registers 0xF165 s0) as (s' & H & Hin & Hout & _);
    [repeat split | vm_compute; discriminate | reflexivity |].
  exists s'. split; [exact H|]. split; [|split].
  - exact (Hin 0 0xF0 ltac:(vm_compute; split; discriminate) eq_refl).
  - exact (Hin 1 0x90 ltac:(vm_compute; split; discriminate) eq_refl).
  - exact (Hout 2 ltac:(vm_compute; reflexivity)).
Defined.

Lemma STA_wf i s s' : STA i s = Ok s' -> wf s -> wf s'.
Proof.
  unfold STA. apply (for_loop_preserves wf). intros j t t' Ht Hwf.
  unfold STA_body in Ht. apply bind_Ok_inv in Ht as (m & Hm & [= <-]).
  apply wr_length in Hm. unfold wf in *. simpl. rewrite Hm. exact Hwf.
Qed.

(** [STA] followed by [LDA] with the same [X] gives every register back:
    the registers, holding bytes, are what they were, and so is [I]. *)
Theorem STA_then_LDA_restores i s :
  wf s -> 0 <= I s -> I s + VX i < SIZE_MEM ->
  Forall (fun b => 0 <= b < 256) (v s) ->
  exists s1 s2, STA i s = Ok s1 /\ LDA i s1 = Ok s2 /\
    v s2 = v s /\ I s2 = I s /\ RAM s2 = RAM s1.
Proof.
  intros Hwf HI Hlim Hbytes.
  destruct (STA_effect i s Hwf HI Hlim) as (s1 & H1 & Hst & _ & Hv1 & HI1).
  assert (Hwf1 : wf s1) by exact (STA_wf _ _ _ H1 Hwf).
  destruct (LDA_effect i s1 Hwf1) as (s2 & H2 & Hld & Hrest & Hlen & HR2 & HI2);
    [lia | lia |].
  exists s1, s2. split; [exact H1|]. split; [exact H2|].
  split; [|split; [congruence | exact HR2]].
  apply list_eq. intros n.
  destruct (v s !! n) as [x|] eqn:Ex.
  - assert (Hn : (n < length (v s2))%nat)
      by (rewrite Hlen, Hv1; now apply lookup_lt_Some in Ex).
    destruct (lookup_lt_is_Some_2 _ _ Hn) as (x2 & Ex2). rewrite Ex2. f_equal.
    assert (Hx : 0 <= x < 256) by (eapply (proj1 (Forall_lookup _ _) Hbytes); eauto).
    assert (Hr2 : reg s2 (Z.of_nat n) = x2) by (unfold reg; now rewrite Nat2Z.id, Ex2).
    assert (Hr : reg s (Z.of_nat n) = x) by (unfold reg; now rewrite Nat2Z.id, Ex).
    rewrite <- Hr2.
    destruct (Z_le_gt_dec (Z.of_nat n) (VX i)).
    + rewrite (Hld (Z.of_nat n) (u8 x)); [| lia | rewrite HI1, <- Hr; apply Hst; lia].
      rewrite !u8_small; try lia. rewrite u8_small; lia.
    + rewrite Hrest by lia. unfold reg. now rewrite Hv1, Nat2Z.id, Ex.
  - apply lookup_ge_None. apply lookup_ge_None in Ex. rewrite Hlen, Hv1. exact Ex.
Qed.

Lemma bytes_forallb (l : list Z) :
  forallb (fun b => (0 <=? b) && (b <? 256)) l = true ->
  Forall (fun b => 0 <= b < 256) l.
Proof.
  intros H. rewrite forallb_forall in H. apply Forall_forall. intros b Hb.
  apply list_elem_of_In, H in Hb. lia.
Qed.

Lemma STA_then_LDA_restores_witness :
  exists s1 s2,
    STA 0xF255 (set_I 0x300 (set_reg 2 0xC3 (set_reg 0 7
                  (initialize sample_RAM_addr)))) = Ok s1 /\
    LDA 0xF265 s1 = Ok s2 /\
    v s2 = v (set_reg 2 0xC3 (set_reg 0 7 (initialize sample_RAM_addr))).
Proof.
  pose (s0 := set_I 0x300 (set_reg 2 0xC3 (set_reg 0 7 (initialize sample_RAM_addr)))).
  destruct (STA_then_LDA_restores 0xF255 s0) as (s1 & s2 & H1 & H2 & Hv & _);
    [repeat split | vm_compute; discriminate | reflexivity
    | apply bytes_forallb; vm_compute; reflexivity |].
  exists s1, s2. split; [exact H1|]. split; [exact H2 | exact Hv].
Defined.

(** ** The framebuffer holds only 0 and 1 *)

Lemma _decrement_timers_step_screen s :
  screen (_decrement_timers s) = screen s.
Proof.
  unfold _decrement_timers.
  destruct (delay_timer s >? 0); simpl;
    match goal with |- context [if ?b then _ else _] => destruct b end;
    reflexivity.
Qed.

Lemma DRW_pixel_binary Vx Vy y p x s s' :
  DRW_pixel Vx Vy y p x s = Ok s' -> pixels_binary s -> pixels_binary s'.
Proof.
  unfold DRW_pixel, pixels_binary. destruct (_ =? 0); [now intros [= <-]|].
  intros H Hbin. apply bind_Ok_inv in H as (c & Hc & H).
  apply bind_Ok_inv in H as (d & Hd & [= <-]).
  assert (Escr : screen (if c =? 0 then s else set_reg 15 1 s) = screen s)
    by (destruct (c =? 0); reflexivity).
  rewrite Escr in Hd. apply wr_Ok_inv in Hd as (_ & ->). simpl.
  apply rd_Ok_inv in Hc as (_ & Hc).
  apply Forall_insert; [exact Hbin|].
  destruct (proj1 (Forall_lookup _ _) Hbin _ _ Hc) as [-> | ->]; vm_compute; auto.
Qed.

Lemma DRW_binary i s s' : DRW i s = Ok s' -> pixels_binary s -> pixels_binary s'.
Proof.
  unfold DRW. intros H Hbin.
  eapply (for_loop_preserves pixels_binary); [| exact H | exact Hbin].
  intros y t t' Ht Hbt. unfold DRW_row in Ht.
  apply bind_Ok_inv in Ht as (p & _ & Ht).
  eapply (for_loop_preserves pixels_binary); [| exact Ht | exact Hbt].
  intros x u u'. apply DRW_pixel_binary.
Qed.

Lemma execute_CLS a r s : execute a r 0x00E0 s = CLS s.
Proof. reflexivity. Qed.

Lemma CLS_screen s s' :
  CLS s = Ok s' -> screen s' = replicate (Z.to_nat (WIDTH * HEIGHT)) 0.
Proof. unfold CLS. intros H. injection H as <-. reflexivity. Qed.

Lemma load_source_screen rom s0 s :
  load_source rom s0 = Ok s -> screen s = screen s0.
Proof.
  unfold load_source. destruct (take _ rom); [discriminate|].
  intros H. injection H as <-. reflexivity.
Qed.

Lemma execute_binary a r i s s' :
  execute a r i s = Ok s' -> pixels_binary s -> pixels_binary s'.
Proof.
  intros H Hbin.
  destruct (proj2 (execute_effect a r i s) s' H) as (_ & [E | [-> | HM]] & _).
  - unfold pixels_binary. now rewrite E.
  - rewrite execute_CLS in H. apply CLS_screen in H.
    unfold pixels_binary. rewrite H. apply Forall_replicate. auto.
  - unfold execute in H. cbv zeta in H. rewrite HM in H.
    apply bind_Ok_inv in H as (t & Ht & [= <-]).
    apply (DRW_binary _ _ _ Ht Hbin).
Qed.

(** In every state the machine reaches, each cell of the framebuffer is 0
    or 1: [CLS] writes zeros and [DRW] only flips a cell between 0 and
    1. *)
Theorem reachable_pixels_binary a s : reachable a s -> pixels_binary s.
Proof.
  induction 1 as [rom s H | h s s' _ IH H | s _ IH].
  - apply load_source_screen in H. unfold pixels_binary. rewrite H.
    change (screen (initialize a)) with (replicate (Z.to_nat (WIDTH * HEIGHT)) 0).
    apply Forall_replicate. auto.
  - destruct (cycle_shapes a h s) as [(_ & E) | [(_ & _ & E) | (_ & i & _ & E)]];
      rewrite E in H; try discriminate.
    apply bind_Ok_inv in H as (s3 & H3 & [= <-]).
    apply execute_binary in H3; [|exact IH].
    unfold pixels_binary in *.
    now destruct (clear_draw_fields s3) as (_ & _ & _ & _ & _ & _ & ->).
  - unfold pixels_binary in *.
    now rewrite _decrement_timers_step_screen.
Qed.

Lemma reachable_pixels_binary_witness :
  exists s3,
    cycles sample_RAM_addr [idle; idle; idle]
      (booted [0xD0; 0x05; 0xD0; 0x03; 0x00; 0xE0]) = Ok s3 /\
    pixels_binary s3.
Proof.
  pose (s0 := booted [0xD0; 0x05; 0xD0; 0x03; 0x00; 0xE0]).
  pose (s1 := match cycle sample_RAM_addr idle s0 with Ok t => t | _ => s0 end).
  pose (s2 := match cycle sample_RAM_addr idle s1 with Ok t => t | _ => s0 end).
  pose (s3 := match cycle sample_RAM_addr idle s2 with Ok t => t | _ => s0 end).
  assert (E1 : cycle sample_RAM_addr idle s0 = Ok s1) by (vm_compute; reflexivity).
  assert (E2 : cycle sample_RAM_addr idle s1 = Ok s2) by (vm_compute; reflexivity).
  assert (E3 : cycle sample_RAM_addr idle s2 = Ok s3) by (vm_compute; reflexivity).
  exists s3. split.
  - change (cycles sample_RAM_addr [idle; idle; idle] s0 = Ok s3).
    rewrite cycles_cons, E1.
    change (cycles sample_RAM_addr [idle; idle] s1 = Ok s3).
    rewrite cycles_cons, E2.
    change (cycles sample_RAM_addr [idle] s2 = Ok s3).
    rewrite cycles_cons, E3. reflexivity.
  - apply (reachable_pixels_binary sample_RAM_addr).
    apply (reach_cycle _ idle s2 s3); [|exact E3].
    apply (reach_cycle _ idle s1 s2); [|exact E2].
    apply (reach_cycle _ idle s0 s1); [|exact E1].
    apply (reach_load _ [0xD0; 0x05; 0xD0; 0x03; 0x00; 0xE0]).
    vm_compute. reflexivity.
Defined.

(** ** DRW: drawing twice, and the collision flag *)

Lemma DRW_pixel_regs Vx Vy y p x s s' :
  DRW_pixel Vx Vy y p x s = Ok s' ->
  wf s -> wf s' /\ forall z, 0 <= z -> z <> 0xF -> reg s' z = reg s z.
Proof.
  unfold DRW_pixel. destruct (_ =? 0); [intros [= <-]; auto|].
  intros H Hwf. apply bind_Ok_inv in H as (c & _ & H).
  apply bind_Ok_inv in H as (d & Hd & [= <-]).
  apply wr_length in Hd. revert Hd.
  destruct (c =? 0); intros Hd; (split;
    [ unfold wf, set_reg in *; simpl in *; rewrite ?length_insert, Hd; tauto
    | intros z Hz Hne ]).
  - reflexivity.
  - change (reg (set_reg 15 1 s) z = reg s z). now rewrite reg_set_reg_ne by lia.
Qed.

Lemma DRW_regs i s s' :
  DRW i s = Ok s' ->
  wf s -> wf s' /\ forall z, 0 <= z -> z <> 0xF -> reg s' z = reg s z.
Proof.
  unfold DRW. intros H Hwf.
  eapply (for_loop_preserves
            (fun t => wf t /\ forall z, 0 <= z -> z <> 0xF -> reg t z = reg s z));
    [| exact H |].
  - intros y t t' Ht (Hwt & Hrt). unfold DRW_row in Ht.
    apply bind_Ok_inv in Ht as (p & _ & Ht).
    eapply (for_loop_preserves
              (fun u => wf u /\ forall z, 0 <= z -> z <> 0xF -> reg u z = reg s z));
      [| exact Ht | split; assumption].
    intros x u u' Hu (Hwu & Hru).
    apply DRW_pixel_regs in Hu as (Hwu' & Hru'); [|exact Hwu].
    split; [exact Hwu'|]. intros z Hz Hne. rewrite Hru' by assumption. now apply Hru.
  - split.
    + unfold wf, set_reg in *; simpl; rewrite length_insert; tauto.
    + intros z Hz Hne. now rewrite reg_set_reg_ne by lia.
Qed.

Lemma rows_hit_same_sprite s t Vx Vy n k :
  RAM t = RAM s -> I t = I s -> rows_hit t Vx Vy n k = rows_hit s Vx Vy n k.
Proof. intros HR HI. unfold rows_hit, sprite_row. now rewrite HR, HI. Qed.

Lemma lxor_1_twice c : Z.lxor (Z.lxor c 1) 1 = c.
Proof. now rewrite Z.lxor_assoc, Z.lxor_nilpotent, Z.lxor_0_r. Qed.

(** Drawing the same sprite twice at the same place, from registers other
    than [VF], gives the framebuffer back as it was. *)
Theorem DRW_twice_restores i s :
  wf s -> 0 <= I s -> I s + LSN i <= SIZE_MEM ->
  VX i <> 0xF -> VY i <> 0xF ->
  0 <= reg s (VX i) -> 0 <= reg s (VY i) ->
  (LSN i = 0 \/
   linear_index (reg s (VX i)) (reg s (VY i)) 7 (LSN i - 1) < WIDTH * HEIGHT) ->
  Forall (fun c => 0 <= c < 256) (screen s) ->
  exists s1 s2, DRW i s = Ok s1 /\ DRW i s1 = Ok s2 /\ screen s2 = screen s.
Proof.
  intros Hwf HI Hmem HXF HYF HVx HVy Hbox Hbytes.
  pose proof (VX_range i). pose proof (VY_range i).
  destruct (DRW_in_range i s) as (s1 & H1 & HR1 & HI1 & Hl1 & Hd1); auto.
  destruct (DRW_regs i s s1 H1 Hwf) as (Hwf1 & Hregs).
  destruct (DRW_in_range i s1) as (s2 & H2 & _ & _ & Hl2 & Hd2);
    rewrite ?HI1, ?Hregs by lia; auto.
  exists s1, s2. split; [exact H1|]. split; [exact H2|].
  apply list_eq. intros n.
  destruct (screen s !! n) as [c|] eqn:Ec.
  - assert (Hc : 0 <= c < 256) by (eapply (proj1 (Forall_lookup _ _) Hbytes); eauto).
    assert (Ec' : screen s !! Z.to_nat (Z.of_nat n) = Some c) by now rewrite Nat2Z.id.
    pose proof (Hd1 (Z.of_nat n) c ltac:(lia) Ec' Hc) as E1.
    assert (Hhit : sprite_hits i s1 (Z.of_nat n) = sprite_hits i s (Z.of_nat n)).
    { unfold sprite_hits. rewrite !Hregs by lia.
      now apply rows_hit_same_sprite. }
    rewrite <- (Nat2Z.id n) at 1.
    destruct (sprite_hits i s (Z.of_nat n)) eqn:Eh.
    + rewrite (Hd2 (Z.of_nat n) (Z.lxor c 1) ltac:(lia) E1).
      * rewrite Hhit. now rewrite lxor_1_twice.
      * rewrite <- lxor_1_byte by exact Hc. apply Z.mod_pos_bound. lia.
    + rewrite (Hd2 (Z.of_nat n) c ltac:(lia) E1 Hc). now rewrite Hhit.
  - apply lookup_ge_None. apply lookup_ge_None in Ec. lia.
Qed.

Lemma DRW_twice_restores_witness :
  exists s1 s2,
    DRW 0xD015 (set_reg 1 3 (set_reg 0 62 (initialize sample_RAM_addr))) = Ok s1 /\
    DRW 0xD015 s1 = Ok s2 /\
    screen s2 = screen (initialize sample_RAM_addr).
Proof.
  destruct (DRW_twice_restores 0xD015
              (set_reg 1 3 (set_reg 0 62 (initialize sample_RAM_addr))))
    as (s1 & s2 & H1 & H2 & Hscr);
    [repeat split | vm_compute; discriminate | vm_compute; discriminate
    | discriminate | discriminate | vm_compute; discriminate
    | vm_compute; discriminate | right; vm_compute; reflexivity
    | apply bytes_forallb; vm_compute; reflexivity |].
  exists s1, s2. split; [exact H1|]. split; [exact H2 | exact Hscr].
Defined.

Lemma fresh_index s0 Vx Vy y p x :
  0 <= x < 8 -> 0 <= y ->
  rows_hit s0 Vx Vy y (linear_index Vx Vy x y)
  || row_hits p Vx Vy y x (linear_index Vx Vy x y) = false.
Proof.
  intros Hx Hy. apply orb_false_iff. split.
  - apply existsb_seqZ_false. intros y' Hy'.
    apply existsb_seqZ_false. intros x' Hx'.
    destruct (Z.eqb_spec (linear_index Vx Vy x y) (linear_index Vx Vy x' y'))
      as [E|_]; [|apply andb_false_r].
    apply linear_index_inj in E; lia.
  - apply existsb_seqZ_false. intros x' Hx'.
    destruct (Z.eqb_spec (linear_index Vx Vy x y) (linear_index Vx Vy x' y))
      as [E|_]; [|apply andb_false_r].
    apply linear_index_inj in E; lia.
Qed.

(** One pass through the body of the inner loop, with the flag. *)
Lemma DRW_pixel_step_flag s0 Vx Vy y p x (P : Z -> bool) (Q : bool) t :
  0 <= linear_index Vx Vy x y < Z.of_nat (length (screen s0)) ->
  Forall (fun c => 0 <= c < 256) (screen s0) ->
  P (linear_index Vx Vy x y) = false ->
  Z.of_nat (length (v t)) = NUM_REGS ->
  drawn s0 P t -> reg t 0xF = (if Q then 1 else 0) ->
  exists t', DRW_pixel Vx Vy y p x t = Ok t' /\
    drawn s0 (fun k => P k || (sprite_bit p x && (k =? linear_index Vx Vy x y))) t' /\
    length (v t') = length (v t) /\
    reg t' 0xF =
      if Q || (sprite_bit p x && negb (cell s0 (linear_index Vx Vy x y) =? 0))
      then 1 else 0.
Proof.
  intros Hidx Hbytes Hfresh Hlen Hd HF.
  destruct (DRW_pixel_step s0 Vx Vy y p x P t Hidx (fun _ => Hfresh) Hd)
    as (t' & Ht' & Hd').
  exists t'. split; [exact Ht'|]. split; [exact Hd'|].
  destruct Hd as (_ & _ & _ & Hscr).
  unfold DRW_pixel in Ht'. unfold sprite_bit.
  set (idx := linear_index Vx Vy x y) in *.
  change (x + Vx + (y + Vy) * WIDTH) with idx in Ht'.
  destruct (Z.land p (Z.shiftr 128 x) =? 0).
  - injection Ht' as <-. simpl. now rewrite orb_false_r.
  - apply bind_Ok_inv in Ht' as (c & Hc & Ht').
    apply bind_Ok_inv in Ht' as (d & _ & [= <-]).
    destruct (lookup_lt_is_Some_2 (screen s0) (Z.to_nat idx)) as (c0 & Hc0); [lia|].
    assert (Hb0 : 0 <= c0 < 256)
      by (eapply (proj1 (Forall_lookup _ _) Hbytes); eauto).
    pose proof (Hscr idx c0 ltac:(lia) Hc0 Hb0) as Et. rewrite Hfresh in Et.
    apply rd_Ok_inv in Hc as (_ & Hc). rewrite Et in Hc. injection Hc as <-.
    assert (Ecell : cell s0 idx = c0) by (unfold cell; now rewrite Hc0).
    rewrite Ecell. simpl negb.
    destruct (c0 =? 0); simpl.
    + split; [reflexivity|]. rewrite orb_false_r. exact HF.
    + split; [now rewrite length_insert|]. rewrite orb_true_r.
      change (reg (set_reg 15 1 t) 15 = 1).
      rewrite reg_set_reg_eq by (unfold NUM_REGS in Hlen; lia). reflexivity.
Qed.

(** One pass through the body of the outer loop, with the flag. *)
Lemma DRW_row_step_flag s0 Vx Vy y t :
  0 <= I s0 + y < Z.of_nat (length (RAM s0)) -> 0 <= y ->
  (forall x, 0 <= x < 8 ->
     0 <= linear_index Vx Vy x y < Z.of_nat (length (screen s0))) ->
  Forall (fun c => 0 <= c < 256) (screen s0) ->
  Z.of_nat (length (v t)) = NUM_REGS ->
  drawn s0 (rows_hit s0 Vx Vy y) t ->
  reg t 0xF = (if rows_collide s0 Vx Vy y then 1 else 0) ->
  exists t', DRW_row Vx Vy y t = Ok t' /\
    Z.of_nat (length (v t')) = NUM_REGS /\
    drawn s0 (rows_hit s0 Vx Vy (y + 1)) t' /\
    reg t' 0xF = (if rows_collide s0 Vx Vy (y + 1) then 1 else 0).
Proof.
  intros Hrow Hy Hidx Hbytes Hlen Hd HF. unfold DRW_row.
  pose proof Hd as (HR & HI & _).
  destruct (rd_in_range (RAM s0) (I s0 + y)) as (p & Hp); [lia|].
  rewrite HR, HI, Hp. simpl.
  assert (Hrowp : sprite_row s0 y = p).
  { unfold sprite_row. apply rd_Ok_inv in Hp as (_ & ->). reflexivity. }
  destruct (for_loop_total
    (fun x u =>
       Z.of_nat (length (v u)) = NUM_REGS /\
       drawn s0 (fun k => rows_hit s0 Vx Vy y k || row_hits p Vx Vy y x k) u /\
       reg u 0xF =
         if rows_collide s0 Vx Vy y || row_collides s0 p Vx Vy y x then 1 else 0)
    (DRW_pixel Vx Vy y p) 8 0 t) as (t' & Ht' & Hlen' & Hfin & HF').
  - intros x u Hx (Hlu & Hu & HFu).
    destruct (DRW_pixel_step_flag s0 Vx Vy y p x
                (fun k => rows_hit s0 Vx Vy y k || row_hits p Vx Vy y x k)
                (rows_collide s0 Vx Vy y || row_collides s0 p Vx Vy y x) u)
      as (u' & Hu' & Hd1 & Hl1 & HF1);
      [apply Hidx; lia | exact Hbytes | apply fresh_index; lia
      | exact Hlu | exact Hu | exact HFu |].
    exists u'. split; [exact Hu'|]. split; [now rewrite Hl1|]. split.
    + eapply drawn_ext; [|exact Hd1].
      intros k. cbv beta. unfold row_hits at 2.
      rewrite existsb_seqZ_snoc by lia. now rewrite orb_assoc.
    + rewrite HF1. unfold row_collides at 2.
      rewrite existsb_seqZ_snoc by lia. now rewrite orb_assoc.
  - split; [exact Hlen|]. split.
    + apply (drawn_ext s0 (rows_hit s0 Vx Vy y)); [|exact Hd].
      intros k. unfold row_hits. rewrite seqZ_nil by lia. simpl.
      now rewrite orb_false_r.
    + rewrite HF. unfold row_collides. rewrite seqZ_nil by lia. simpl.
      now rewrite orb_false_r.
  - exists t'. split; [exact Ht'|]. split; [exact Hlen'|]. split.
    + eapply drawn_ext; [|exact Hfin].
      intros k. cbv beta. unfold rows_hit at 2.
      rewrite existsb_seqZ_snoc by lia. now rewrite Hrowp.
    + rewrite HF'. unfold rows_collide at 2.
      rewrite existsb_seqZ_snoc by lia. now rewrite Hrowp.
Qed.

(** [DRW] leaves [VF] = 1 exactly when some set pixel of the sprite fell on
    a cell that was on, that is, when the drawing turned a pixel off;
    otherwise [VF] = 0, whatever it held before. *)
Theorem DRW_collision_flag i s :
  wf s -> 0 <= I s -> I s + LSN i <= SIZE_MEM ->
  0 <= reg s (VX i) -> 0 <= reg s (VY i) ->
  (LSN i = 0 \/
   linear_index (reg s (VX i)) (reg s (VY i)) 7 (LSN i - 1) < WIDTH * HEIGHT) ->
  Forall (fun c => 0 <= c < 256) (screen s) ->
  exists s', DRW i s = Ok s' /\
    reg s' 0xF = if sprite_collides i s then 1 else 0.
Proof.
  intros (HR & Hv & _ & Hscr) HI Hmem HVx HVy Hbox Hbytes.
  pose proof (LSN_range i) as Hn. unfold DRW, sprite_collides.
  set (Vx := reg s (VX i)) in *. set (Vy := reg s (VY i)) in *.
  destruct (for_loop_total
    (fun y t =>
       Z.of_nat (length (v t)) = NUM_REGS /\
       drawn s (rows_hit s Vx Vy y) t /\
       reg t 0xF = if rows_collide s Vx Vy y then 1 else 0)
    (DRW_row Vx Vy) (Z.to_nat (LSN i)) 0 (set_reg 0xF 0 s))
    as (s' & Hs' & _ & _ & HF).
  - intros y t Hy (Hlt & Hdt & HFt).
    apply DRW_row_step_flag; try assumption; try lia.
    intros x Hx. rewrite Hscr.
    destruct Hbox as [Hz | Hbox]; [lia|].
    unfold linear_index, WIDTH, HEIGHT in *. lia.
  - split; [unfold set_reg; simpl; now rewrite length_insert|]. split.
    + repeat split. intros k c _ Hc _. exact Hc.
    + rewrite reg_set_reg_eq by (unfold NUM_REGS in Hv; lia). reflexivity.
  - exists s'. split; [exact Hs'|].
    now replace (0 + Z.of_nat (Z.to_nat (LSN i))) with (LSN i) in HF by lia.
Qed.

Lemma DRW_collision_flag_witness :
  (exists s',
     DRW 0xD015 (set_reg 0xF 7 (initialize sample_RAM_addr)) = Ok s' /\
     reg s' 0xF = 0) /\
  (exists s',
     DRW 0xD015 (set_screen (<[0%nat := 1]> (screen (initialize sample_RAM_addr)))
                   (initialize sample_RAM_addr)) = Ok s' /\
     reg s' 0xF = 1).
Proof.
  split.
  - destruct (DRW_collision_flag 0xD015 (set_reg 0xF 7 (initialize sample_RAM_addr)))
      as (s' & H & HF);
      [repeat split | vm_compute; discriminate | vm_compute; discriminate
      | vm_compute; discriminate | vm_compute; discriminate
      | right; vm_compute; reflexivity
      | apply bytes_forallb; vm_compute; reflexivity |].
    exists s'. split; [exact H|]. rewrite HF. vm_compute. reflexivity.
  - destruct (DRW_collision_flag 0xD015
                (set_screen (<[0%nat := 1]> (screen (initialize sample_RAM_addr)))
                   (initialize sample_RAM_addr)))
      as (s' & H & HF);
      [repeat split | vm_compute; discriminate | vm_compute; discriminate
      | vm_compute; discriminate | vm_compute; discriminate
      | right; vm_compute; reflexivity
      | apply bytes_forallb; vm_compute; reflexivity |].
    exists s'. split; [exact H|]. rewrite HF. vm_compute. reflexivity.
Defined.

(** ** Where the program counter goes *)

















